(** * vite-components-lib: the build configuration, embedded and verified

  The repository's build logic is its [vite.config.ts] (the Rollup
  options computed there) together with two fields of [package.json]
  ([scripts.build] and [sideEffects]).  This development embeds

  - the JavaScript expression that computes [rollupOptions.input]
    ([glob.sync(..).map(..)] fed to [Object.fromEntries]), with the
    Node [path] and [url] functions and the property order of ordinary
    objects;
  - the output name patterns [assetFileNames] and [entryFileNames], with
    the way Rollup names the files it emits;
  - the [external] list and the matcher Rollup derives from it;
  - the [sideEffects] glob of the package manifest;
  - the [&&] list of [scripts.build].

  Strings are sequences of code units, text outside ASCII being in its
  UTF-8 form; paths are POSIX paths. *)

From Stdlib Require Import List String Ascii Bool Arith NArith ZArith Lia.
From Stdlib Require Import Relations.Relation_Operators Relations.Operators_Properties.
From Stdlib Require Import Numbers.DecimalString Numbers.DecimalNat.
Import ListNotations.
Open Scope list_scope.
Open Scope string_scope.

(* ================================================================== *)
(** ** Node's [path] module (POSIX flavour) *)
(* ================================================================== *)

Module Path.

Definition is_slash (c : ascii) : bool := Ascii.eqb c "/".
Definition is_dot (c : ascii) : bool := Ascii.eqb c ".".

(** [split p] cuts [p] at every "/"; [split "a//b" = ["a"; ""; "b"]]. *)
Fixpoint split (p : string) : list string :=
  match p with
  | EmptyString => [EmptyString]
  | String c p' =>
      if is_slash c then EmptyString :: split p'
      else match split p' with
           | seg :: rest => String c seg :: rest
           | [] => [String c EmptyString]
           end
  end.

Definition join (segs : list string) : string := String.concat "/" segs.

Definition nonempty (s : string) : bool :=
  match s with EmptyString => false | String _ _ => true end.

(** [path.basename]: the last portion of the path, trailing
    separators ignored. *)
Definition basename (p : string) : string :=
  last (filter nonempty (split p)) EmptyString.

(** The suffix of [b] that starts at its last ".", when it has one. *)
Fixpoint last_dot_suffix (b : string) : option string :=
  match b with
  | EmptyString => None
  | String c b' =>
      match last_dot_suffix b' with
      | Some e => Some e
      | None => if is_dot c then Some b else None
      end
  end.

(** [path.extname]: from the last "." of the last portion to its end;
    empty when there is no "." or the only one is the first character
    of the portion, and empty for "..". *)
Definition extname (p : string) : string :=
  let b := basename p in
  if String.eqb b ".." then EmptyString
  else match b with
       | EmptyString => EmptyString
       | String _ b' =>
           match last_dot_suffix b' with
           | Some e => e
           | None => EmptyString
           end
       end.

(** No "/" occurs in [s]. *)
Fixpoint noSlash (s : string) : bool :=
  match s with
  | EmptyString => true
  | String c s' => negb (is_slash c) && noSlash s'
  end.

Definition is_absolute (p : string) : bool :=
  match p with
  | String c _ => is_slash c
  | EmptyString => false
  end.

(** Normalisation of a segment list: "" and "." vanish, ".." drops the
    segment before it (and nothing at the root).  [stack] is reversed. *)
Fixpoint normalize (stack : list string) (segs : list string) : list string :=
  match segs with
  | [] => rev stack
  | seg :: rest =>
      if String.eqb seg "" || String.eqb seg "." then normalize stack rest
      else if String.eqb seg ".." then normalize (tl stack) rest
      else normalize (seg :: stack) rest
  end.

(** [path.resolve(p)] with working directory [cwd], as the segments of
    the absolute path. *)
Definition resolve (cwd p : string) : list string :=
  normalize [] (if is_absolute p then split p else (split cwd ++ split p)%list).

Fixpoint drop_common (a b : list string) : list string * list string :=
  match a, b with
  | x :: a', y :: b' => if String.eqb x y then drop_common a' b' else (a, b)
  | _, _ => (a, b)
  end.

(** [path.relative(from, to)]. *)
Definition relative (cwd from to : string) : string :=
  let '(up, down) := drop_common (resolve cwd from) (resolve cwd to) in
  join (repeat ".." (List.length up) ++ down)%list.

End Path.

(* ================================================================== *)
(** ** Ordinary JavaScript objects with string keys *)
(* ================================================================== *)

Module JSObject.

(** An object is the list of its own properties in the order
    [Object.entries] enumerates them: array-index keys first, in
    ascending numeric order, then the other keys in creation order. *)
Definition object : Type := list (string * string).

Definition digit (c : ascii) : option N :=
  let n := N_of_ascii c in
  if (48 <=? n)%N && (n <=? 57)%N then Some (n - 48)%N else None.

Fixpoint decimal (acc : N) (s : string) : option N :=
  match s with
  | EmptyString => Some acc
  | String c s' =>
      match digit c with
      | Some d => decimal (acc * 10 + d)%N s'
      | None => None
      end
  end.

(** A key is an array index when it is the canonical decimal form of
    an integer below 2^32 - 1. *)
Definition array_index (k : string) : option N :=
  match k with
  | EmptyString => None
  | String c rest =>
      if Ascii.eqb c "0" && Path.nonempty rest then None
      else match decimal 0 k with
           | Some n => if (n <? 4294967295)%N then Some n else None
           | None => None
           end
  end.

Fixpoint get (k : string) (o : object) : option string :=
  match o with
  | [] => None
  | (k', v) :: o' => if String.eqb k k' then Some v else get k o'
  end.

Definition keys (o : object) : list string := map fst o.

Definition has (k : string) (o : object) : bool :=
  match get k o with Some _ => true | None => false end.

(** Overwriting an existing property keeps its place. *)
Fixpoint replace (k v : string) (o : object) : object :=
  match o with
  | [] => []
  | (k', v') :: o' =>
      if String.eqb k k' then (k, v) :: o' else (k', v') :: replace k v o'
  end.

(** A new array-index key goes before the first larger index and
    before every non-index key. *)
Fixpoint insert_index (n : N) (k v : string) (o : object) : object :=
  match o with
  | [] => [(k, v)]
  | (k', v') :: o' =>
      match array_index k' with
      | Some m => if (n <? m)%N then (k, v) :: o
                  else (k', v') :: insert_index n k v o'
      | None => (k, v) :: o
      end
  end.

(** [o[k] = v] *)
Definition set (k v : string) (o : object) : object :=
  if has k o then replace k v o
  else match array_index k with
       | Some n => insert_index n k v o
       | None => (o ++ [(k, v)])%list
       end.

(** [Object.fromEntries]: the pairs are assigned in order. *)
Definition fromEntries (entries : list (string * string)) : object :=
  fold_left (fun o kv => set (fst kv) (snd kv) o) entries [].

End JSObject.

(* ================================================================== *)
(** ** Rollup: output name patterns and the matcher of [external] *)
(* ================================================================== *)

Module Rollup.

(** [renderNamePattern]: every ["[word]"] of the pattern is replaced by
    what [replacements] gives for [word]; a placeholder without a
    replacement is an error ([None]).  [inside] holds the characters read
    since an open bracket. *)
Fixpoint renderFrom (replacements : string -> option string)
  (pattern : string) (inside : option string) : option string :=
  match pattern with
  | EmptyString =>
      match inside with
      | None => Some EmptyString
      | Some word => Some (String "[" word)
      end
  | String c rest =>
      match inside with
      | None =>
          if Ascii.eqb c "[" then renderFrom replacements rest (Some EmptyString)
          else option_map (String c) (renderFrom replacements rest None)
      | Some word =>
          if Ascii.eqb c "]" then
            match replacements word with
            | Some value =>
                option_map (String.append value) (renderFrom replacements rest None)
            | None => None
            end
          else renderFrom replacements rest (Some (word ++ String c EmptyString))
      end
  end.

Definition renderNamePattern (pattern : string)
  (replacements : string -> option string) : option string :=
  renderFrom replacements pattern None.

(** [s.slice(0, n)] for [0 <= n]. *)
Definition slice0 (s : string) (n : nat) : string := String.substring 0 n s.

(** [s.slice(1)] *)
Definition slice1 (s : string) : string :=
  match s with EmptyString => EmptyString | String _ s' => s' end.

(** The replacements Rollup offers for an emitted asset: [name] is the
    file name without its extension, [extname] the extension with its
    dot, [ext] without.  ([hash] is left out: no pattern of this
    configuration asks for it.) *)
Definition assetReplacements (emittedName : string) (word : string) : option string :=
  if String.eqb word "name" then
    Some (slice0 emittedName
            (String.length emittedName - String.length (Path.extname emittedName)))
  else if String.eqb word "extname" then Some (Path.extname emittedName)
  else if String.eqb word "ext" then Some (slice1 (Path.extname emittedName))
  else None.

(** The replacements for an entry chunk: [name] is the name of the
    chunk, which is the sanitized key of the entry in [input]; the only
    output format configured is "es". *)
Definition chunkReplacements (chunkName : string) (word : string) : option string :=
  if String.eqb word "name" then Some chunkName
  else if String.eqb word "format" then Some "es"
  else None.

(** An array given as [external] becomes a test of membership in the set
    of its strings; the importer and the resolved flag are not looked at. *)
Definition idMatcher (ids : list string)
  (source : string) (importer : option string) (isResolved : bool) : bool :=
  existsb (String.eqb source) ids.

(** *** Names of output files *)

Definition code (c : ascii) : N := N_of_ascii c.

Definition isUpper (c : ascii) : bool := (65 <=? code c)%N && (code c <=? 90)%N.
Definition isLower (c : ascii) : bool := (97 <=? code c)%N && (code c <=? 122)%N.
Definition isAlpha (c : ascii) : bool := isUpper c || isLower c.

Definition lowerChar (c : ascii) : ascii :=
  if isUpper c then ascii_of_N (code c + 32) else c.

(** [s.toLowerCase()], for the letters of ASCII. *)
Fixpoint toLowerCase (s : string) : string :=
  match s with
  | EmptyString => EmptyString
  | String c s' => String (lowerChar c) (toLowerCase s')
  end.

(** The characters [sanitizeFileName] does not let through: the control
    characters and the double quote, #, $, &, *, +, the comma, the colon,
    the semicolon, <, =, >, ?, the square brackets, ^, the backquote,
    the braces and the bar. *)
Definition invalidChar (c : ascii) : bool :=
  (code c <=? 31)%N
  || existsb (N.eqb (code c))
       [34; 35; 36; 38; 42; 43; 44; 58; 59; 60; 61; 62; 63;
        91; 93; 94; 96; 123; 124; 125; 127]%N.

Fixpoint replaceInvalid (s : string) : string :=
  match s with
  | EmptyString => EmptyString
  | String c s' => String (if invalidChar c then "_"%char else c) (replaceInvalid s')
  end.

(** [sanitizeFileName]: every invalid character becomes "_"; a drive
    letter with its colon at the front is kept. *)
Definition sanitizeFileName (name : string) : string :=
  match name with
  | String c (String d rest) =>
      if isAlpha c && Ascii.eqb d ":" then String c (String d (replaceInvalid rest))
      else replaceInvalid name
  | _ => replaceInvalid name
  end.

Definition separatorLike (c : ascii) : bool :=
  Path.is_slash c || Ascii.eqb c "\" || Ascii.eqb c "|".

(** [isAbsolute]: a leading "/", "\" or "|", with or without a drive
    letter before it. *)
Definition isAbsolute (name : string) : bool :=
  match name with
  | EmptyString => false
  | String c rest =>
      separatorLike c
      || (isAlpha c
          && match rest with
             | String d (String e _) => Ascii.eqb d ":" && separatorLike e
             | _ => false
             end)
  end.

(** [isPathFragment]: names that start like an absolute or a relative
    path; Rollup refuses them as file names and as substitutions. *)
Definition isPathFragment (name : string) : bool :=
  match name with
  | EmptyString => false
  | String c rest =>
      Path.is_slash c
      || (Path.is_dot c
          && match rest with
             | String d _ => Path.is_slash d || Path.is_dot d
             | EmptyString => false
             end)
      || isAbsolute name
  end.

(** Replacements whose value is a path fragment are an error. *)
Definition checked (replacements : string -> option string) (word : string)
  : option string :=
  match replacements word with
  | Some value => if isPathFragment value then None else Some value
  | None => None
  end.

Definition decimal (k : nat) : string := NilEmpty.string_of_uint (Nat.to_uint k).

(** A name is taken when the bundle holds it in some spelling of upper
    and lower case. *)
Definition taken (reserved : list string) (name : string) : bool :=
  existsb (String.eqb (toLowerCase name)) (map toLowerCase reserved).

(** The loop of [makeUnique]: name2.ext, name3.ext, ... until one is
    free.  [fuel] bounds the search; one more than the number of reserved
    names is enough. *)
Fixpoint firstFree (reserved : list string) (stem ext : string) (k fuel : nat)
  : string :=
  match fuel with
  | O => stem ++ decimal k ++ ext
  | S fuel' =>
      if taken reserved (stem ++ decimal k ++ ext)
      then firstFree reserved stem ext (S k) fuel'
      else stem ++ decimal k ++ ext
  end.

(** [makeUnique(name, bundle)] *)
Definition makeUnique (reserved : list string) (name : string) : string :=
  if taken reserved name then
    let ext := Path.extname name in
    firstFree reserved
      (slice0 name (String.length name - String.length ext)) ext
      2 (S (List.length reserved))
  else name.

(** [generateAssetFileName]: the emitted name is sanitized, the pattern
    rendered from it, and the result made unique in the bundle. *)
Definition generateAssetFileName (pattern : string) (reserved : list string)
  (name : string) : option string :=
  let emittedName :=
    sanitizeFileName (match name with EmptyString => "asset" | _ => name end) in
  option_map (makeUnique reserved)
    (renderNamePattern pattern (checked (assetReplacements emittedName))).

(** The file emitter: the names in the bundle, and for every asset
    source the file it was given. *)
Record Emitter : Type := {
  bundle : list string;
  bySource : list (string * string)
}.

Fixpoint fileOfSource (source : string) (known : list (string * string))
  : option string :=
  match known with
  | [] => None
  | (s, f) :: known' => if String.eqb source s then Some f else fileOfSource source known'
  end.

(** [this.emitFile({ type: "asset", name, source })]: an asset whose
    source the emitter has seen gets the file of that source; another
    gets a new name.  [None] is an error that ends the build. *)
Definition emitAsset (pattern : string) (e : Emitter) (name source : string)
  : option (string * Emitter) :=
  if isPathFragment name then None
  else match fileOfSource source (bySource e) with
       | Some f => Some (f, e)
       | None =>
           match generateAssetFileName pattern (bundle e) name with
           | Some f => Some (f, {| bundle := f :: bundle e;
                                   bySource := (source, f) :: bySource e |})
           | None => None
           end
       end.

End Rollup.

(* ================================================================== *)
(** ** Globs of a [sideEffects] list *)
(* ================================================================== *)

Module Glob.

Inductive token : Type :=
| Lit (c : ascii)      (* the character itself *)
| One                  (* "?": one character other than "/" *)
| Star                 (* "*": characters other than "/" *)
| GlobstarSlash        (* "**/": any number of whole directories *)
| Globstar.            (* "**" elsewhere: anything *)

Fixpoint parse (g : string) : list token :=
  match g with
  | EmptyString => []
  | String c g1 =>
      if Ascii.eqb c "*" then
        match g1 with
        | String c1 g2 =>
            if Ascii.eqb c1 "*" then
              match g2 with
              | String c2 g3 =>
                  if Path.is_slash c2 then GlobstarSlash :: parse g3
                  else Globstar :: parse g2
              | EmptyString => [Globstar]
              end
            else Star :: parse g1
        | EmptyString => [Star]
        end
      else if Ascii.eqb c "?" then One :: parse g1
      else Lit c :: parse g1
  end.

(** "*" followed by [k]: [k] takes over after any run of characters
    other than "/". *)
Fixpoint star (k : string -> bool) (s : string) : bool :=
  k s
  || match s with
     | String c s' => negb (Path.is_slash c) && star k s'
     | EmptyString => false
     end.

(** [k] takes over right after some "/" of [s]. *)
Fixpoint dirs (k : string -> bool) (s : string) : bool :=
  match s with
  | String c s' => (Path.is_slash c && k s') || dirs k s'
  | EmptyString => false
  end.

(** [k] takes over anywhere in [s]. *)
Fixpoint anywhere (k : string -> bool) (s : string) : bool :=
  k s
  || match s with
     | String _ s' => anywhere k s'
     | EmptyString => false
     end.

Fixpoint matchTokens (p : list token) (s : string) {struct p} : bool :=
  match p with
  | [] => match s with EmptyString => true | String _ _ => false end
  | Lit c :: p' =>
      match s with
      | String c' s' => Ascii.eqb c c' && matchTokens p' s'
      | EmptyString => false
      end
  | One :: p' =>
      match s with
      | String c' s' => negb (Path.is_slash c') && matchTokens p' s'
      | EmptyString => false
      end
  | Star :: p' => star (matchTokens p') s
  | GlobstarSlash :: p' => matchTokens p' s || dirs (matchTokens p') s
  | Globstar :: p' => anywhere (matchTokens p') s
  end.

Definition matches (glob path : string) : bool := matchTokens (parse glob) path.

End Glob.

(* ================================================================== *)
(** ** A shell list [a && b] *)
(* ================================================================== *)

Module Shell.

Inductive script : Type :=
| Simple (command : string)
| AndIf (left right : script).           (* left && right *)

(** Cuts a command line at every " && "; [skip] counts the characters
    of a separator still to pass over. *)
Fixpoint splitAndIf (line : string) (cur : string) (skip : nat) : list string :=
  match line with
  | EmptyString => [cur]
  | String c rest =>
      match skip with
      | S k => splitAndIf rest cur k
      | O =>
          if String.prefix " && " line then cur :: splitAndIf rest EmptyString 3
          else splitAndIf rest (cur ++ String c EmptyString) 0
      end
  end.

Definition parse (line : string) : script :=
  match splitAndIf line EmptyString 0 with
  | [] => Simple EmptyString
  | first :: others => fold_left (fun acc c => AndIf acc (Simple c)) others (Simple first)
  end.

(** A program maps the file system to an exit status and the file
    system it leaves. *)
Definition program (FS : Type) : Type := FS -> Z * FS.

(** [a && b] runs [b] only when [a] exits with status 0; the status of
    the list is that of the last command run. *)
Fixpoint run {FS : Type} (exec : string -> program FS) (s : script) (fs : FS) : Z * FS :=
  match s with
  | Simple c => exec c fs
  | AndIf a b =>
      let '(status, fs') := run exec a fs in
      if (status =? 0)%Z then run exec b fs' else (status, fs')
  end.

End Shell.

(* ================================================================== *)
(** ** [fileURLToPath(new URL(file, import.meta.url))] *)
(* ================================================================== *)

Module URL.

(** A reference is parsed against the URL of the configuration file,
    file:///<root>/vite.config.ts, as the URL standard has it for a
    "file" base, and the path of the result is decoded as Node's
    [fileURLToPath] does on POSIX.  Text outside ASCII is taken in its
    UTF-8 form, one character of the string per byte.  [None] stands for
    an exception.  (Of the hosts a reference can name, only the empty one
    and "localhost" as spelt in ASCII are known to the model; all others
    count as foreign.) *)

Definition code (c : ascii) : N := N_of_ascii c.

Definition isC0OrSpace (c : ascii) : bool := (code c <=? 32)%N.

Definition isTabOrNewline (c : ascii) : bool :=
  (code c =? 9)%N || (code c =? 10)%N || (code c =? 13)%N.

Definition isSeparator (c : ascii) : bool :=
  Ascii.eqb c "/" || Ascii.eqb c "\".

Definition isQueryOrFragment (c : ascii) : bool :=
  Ascii.eqb c "?" || Ascii.eqb c "#".

Definition isDigit (c : ascii) : bool := (48 <=? code c)%N && (code c <=? 57)%N.

Definition isSchemeChar (c : ascii) : bool :=
  Rollup.isAlpha c || isDigit c
  || Ascii.eqb c "+" || Ascii.eqb c "-" || Ascii.eqb c ".".

Fixpoint stripLeading (s : string) : string :=
  match s with
  | EmptyString => EmptyString
  | String c s' => if isC0OrSpace c then stripLeading s' else s
  end.

Fixpoint stripTrailing (s : string) : string :=
  match s with
  | EmptyString => EmptyString
  | String c s' =>
      match stripTrailing s' with
      | EmptyString => if isC0OrSpace c then EmptyString else String c EmptyString
      | rest => String c rest
      end
  end.

Fixpoint removeTabsAndNewlines (s : string) : string :=
  match s with
  | EmptyString => EmptyString
  | String c s' =>
      if isTabOrNewline c then removeTabsAndNewlines s'
      else String c (removeTabsAndNewlines s')
  end.

(** What the parser does to its input before it reads it. *)
Definition prepare (s : string) : string :=
  removeTabsAndNewlines (stripTrailing (stripLeading s)).

(** The scheme of a reference, in lower case, and what follows its
    colon; [acc] holds the scheme read so far. *)
Fixpoint schemeRest (s : string) (acc : string) : option (string * string) :=
  match s with
  | EmptyString => None
  | String c s' =>
      if Ascii.eqb c ":" then Some (acc, s')
      else if isSchemeChar c
           then schemeRest s' (acc ++ String (Rollup.lowerChar c) EmptyString)
           else None
  end.

Definition splitScheme (s : string) : option (string * string) :=
  match s with
  | EmptyString => None
  | String c s' =>
      if Rollup.isAlpha c
      then schemeRest s' (String (Rollup.lowerChar c) EmptyString)
      else None
  end.

(** The part of a reference before its query and fragment. *)
Fixpoint beforeQueryAndFragment (s : string) : string :=
  match s with
  | EmptyString => EmptyString
  | String c s' =>
      if isQueryOrFragment c then EmptyString
      else String c (beforeQueryAndFragment s')
  end.

(** Cuts at every "/" and "\". *)
Fixpoint splitSegments (s : string) : list string :=
  match s with
  | EmptyString => [EmptyString]
  | String c s' =>
      if isSeparator c then EmptyString :: splitSegments s'
      else match splitSegments s' with
           | seg :: rest => String c seg :: rest
           | [] => [String c EmptyString]
           end
  end.

Definition isSingleDot (segment : string) : bool :=
  let l := Rollup.toLowerCase segment in
  String.eqb l "." || String.eqb l "%2e".

Definition isDoubleDot (segment : string) : bool :=
  let l := Rollup.toLowerCase segment in
  String.eqb l ".." || String.eqb l ".%2e"
  || String.eqb l "%2e." || String.eqb l "%2e%2e".

Definition isDriveLetter (segment : string) : bool :=
  match segment with
  | String c (String d EmptyString) =>
      Rollup.isAlpha c && (Ascii.eqb d ":" || Ascii.eqb d "|")
  | _ => false
  end.

Definition isNormalizedDriveLetter (segment : string) : bool :=
  match segment with
  | String c (String d EmptyString) => Rollup.isAlpha c && Ascii.eqb d ":"
  | _ => false
  end.

Definition normalizeDriveLetter (segment : string) : string :=
  match segment with
  | String c (String _ EmptyString) => String c (String ":" EmptyString)
  | _ => segment
  end.

Definition startsWithDriveLetter (s : string) : bool :=
  match s with
  | String c (String d rest) =>
      Rollup.isAlpha c && (Ascii.eqb d ":" || Ascii.eqb d "|")
      && match rest with
         | EmptyString => true
         | String e _ => isSeparator e || isQueryOrFragment e
         end
  | _ => false
  end.

(** Shortening a path drops its last segment, except a lone drive
    letter. *)
Definition shorten (path : list string) : list string :=
  match path with
  | [d] => if isNormalizedDriveLetter d then path else []
  | _ => removelast path
  end.

Definition isNil {A : Type} (l : list A) : bool :=
  match l with [] => true | _ :: _ => false end.

(** The path state, one segment of the reference at a time. *)
Fixpoint pathState (path : list string) (segments : list string) : list string :=
  match segments with
  | [] => path
  | seg :: rest =>
      let atEnd := isNil rest in
      if isDoubleDot seg then
        pathState (if atEnd then shorten path ++ [EmptyString] else shorten path)%list rest
      else if isSingleDot seg then
        pathState (if atEnd then path ++ [EmptyString] else path)%list rest
      else
        pathState
          (path ++ [if isNil path && isDriveLetter seg
                    then normalizeDriveLetter seg else seg])%list
          rest
  end.

Fixpoint escapePercent (s : string) : string :=
  match s with
  | EmptyString => EmptyString
  | String c s' =>
      if Ascii.eqb c "%" then "%25" ++ escapePercent s'
      else String c (escapePercent s')
  end.

(** The path of the base URL: the segments of the directory, then the
    name of the configuration file. *)
Definition basePath (root : string) : list string :=
  (pathState [] (map escapePercent (Path.normalize [] (Path.split root)))
   ++ ["vite.config.ts"])%list.

Definition relativePath (path : list string) (s : string) : list string :=
  pathState path (splitSegments (beforeQueryAndFragment s)).

Fixpoint hostAndRest (s : string) (host : string) : string * string :=
  match s with
  | EmptyString => (host, EmptyString)
  | String c s' =>
      if isSeparator c || isQueryOrFragment c then (host, s)
      else hostAndRest s' (host ++ String c EmptyString)
  end.

(** After "//": the host, then the path. *)
Definition fileHost (s : string) : option (list string) :=
  let '(host, rest) := hostAndRest s EmptyString in
  if isDriveLetter host then Some (relativePath [] s)
  else if String.eqb host "" || String.eqb (Rollup.toLowerCase host) "localhost"
  then Some (relativePath []
               (match rest with
                | String c rest' => if isSeparator c then rest' else rest
                | EmptyString => rest
                end))
  else None.

(** After one "/": the path starts at the root, below the drive of the
    base if it has one. *)
Definition fileSlash (base : list string) (s : string) : list string :=
  relativePath
    (match base with
     | d :: _ =>
         if negb (startsWithDriveLetter s) && isNormalizedDriveLetter d
         then [d] else []
     | [] => []
     end)
    s.

(** The path segments of [new URL(s, base)] for a "file" URL. *)
Definition fileState (base : list string) (s : string) : option (list string) :=
  match s with
  | EmptyString => Some base
  | String c s' =>
      if isQueryOrFragment c then Some base
      else if isSeparator c then
        match s' with
        | String d s'' => if isSeparator d then fileHost s'' else Some (fileSlash base s')
        | EmptyString => Some (fileSlash base s')
        end
      else Some (relativePath (if startsWithDriveLetter s then [] else shorten base) s)
  end.

Definition parse (root reference : string) : option (list string) :=
  let s := prepare reference in
  match splitScheme s with
  | Some (scheme, rest) =>
      if String.eqb scheme "file" then fileState (basePath root) rest else None
  | None => fileState (basePath root) s
  end.

Fixpoint pathname (path : list string) : string :=
  match path with
  | [] => EmptyString
  | seg :: rest => "/" ++ seg ++ pathname rest
  end.

(** [fileURLToPath] refuses an encoded "/". *)
Fixpoint hasEncodedSlash (s : string) : bool :=
  match s with
  | EmptyString => false
  | String c s' =>
      (Ascii.eqb c "%"
       && match s' with
          | String d (String e _) =>
              Ascii.eqb d "2" && (Ascii.eqb e "f" || Ascii.eqb e "F")
          | _ => false
          end)
      || hasEncodedSlash s'
  end.

Definition hexValue (c : ascii) : option N :=
  let n := code c in
  if (48 <=? n)%N && (n <=? 57)%N then Some (n - 48)%N
  else if (65 <=? n)%N && (n <=? 70)%N then Some (n - 55)%N
  else if (97 <=? n)%N && (n <=? 102)%N then Some (n - 87)%N
  else None.

(** For the first byte of a UTF-8 sequence: how many bytes follow, and
    the bounds of the next one. *)
Definition leadByte (b : N) : option (nat * N * N) :=
  if (194 <=? b)%N && (b <=? 223)%N then Some (1%nat, 128%N, 191%N)
  else if (b =? 224)%N then Some (2%nat, 160%N, 191%N)
  else if (b =? 237)%N then Some (2%nat, 128%N, 159%N)
  else if (225 <=? b)%N && (b <=? 239)%N then Some (2%nat, 128%N, 191%N)
  else if (b =? 240)%N then Some (3%nat, 144%N, 191%N)
  else if (b =? 244)%N then Some (3%nat, 128%N, 143%N)
  else if (241 <=? b)%N && (b <=? 243)%N then Some (3%nat, 128%N, 191%N)
  else None.

(** [decodeURIComponent]: every %XX becomes its byte; the bytes above
    ASCII that escapes give must form UTF-8.  [pending] tells what a
    sequence under way still needs. *)
Fixpoint decodeFrom (s : string) (pending : option (nat * N * N)) : option string :=
  match s with
  | EmptyString =>
      match pending with
      | None => Some EmptyString
      | Some _ => None
      end
  | String c s1 =>
      if Ascii.eqb c "%" then
        match s1 with
        | String h1 (String h2 s3) =>
            match hexValue h1, hexValue h2 with
            | Some a, Some b =>
                let byte := (16 * a + b)%N in
                match pending with
                | None =>
                    if (byte <? 128)%N
                    then option_map (String (ascii_of_N byte)) (decodeFrom s3 None)
                    else match leadByte byte with
                         | Some next =>
                             option_map (String (ascii_of_N byte))
                               (decodeFrom s3 (Some next))
                         | None => None
                         end
                | Some (n, lo, hi) =>
                    if (lo <=? byte)%N && (byte <=? hi)%N
                    then option_map (String (ascii_of_N byte))
                           (decodeFrom s3
                              (match n with
                               | S (S n') => Some (S n', 128%N, 191%N)
                               | _ => None
                               end))
                    else None
                end
            | _, _ => None
            end
        | _ => None
        end
      else match pending with
           | None => option_map (String c) (decodeFrom s1 None)
           | Some _ => None
           end
  end.

Definition decodeURIComponent (s : string) : option string := decodeFrom s None.

(** [fileURLToPath(new URL(reference, import.meta.url))], the
    configuration file being <root>/vite.config.ts. *)
Definition fileURLToPath (root reference : string) : option string :=
  match parse root reference with
  | Some path =>
      if hasEncodedSlash (pathname path) then None
      else decodeURIComponent (pathname path)
  | None => None
  end.

End URL.

(* ================================================================== *)
(** ** vite.config.ts *)
(* ================================================================== *)

Module ViteConfig.

(** [rollupOptions.external] *)
Definition external : list string := ["react"; "react-dom"; "react/jsx-runtime"].

(** [rollupOptions.output.assetFileNames] and [entryFileNames] *)
Definition assetFileNames : string := "assets/[name][extname]".
Definition entryFileNames : string := "[name].js".

(** [relative("lib", file.slice(0, file.length - extname(file).length))];
    [root] is the directory of vite.config.ts, where the build runs. *)
Definition logicalName (root file : string) : string :=
  Path.relative root "lib"
    (Rollup.slice0 file (String.length file - String.length (Path.extname file))).

(** The pair the callback of [map] returns for [file]; [toPath] is
    [file => fileURLToPath(new URL(file, import.meta.url))], which can
    throw. *)
Definition entryPairWith (toPath : string -> option string) (root file : string)
  : option (string * string) :=
  option_map (pair (logicalName root file)) (toPath file).

(** [array.map(f)] for an [f] that can throw: the first exception ends
    the evaluation. *)
Fixpoint traverse {A B : Type} (f : A -> option B) (l : list A) : option (list B) :=
  match l with
  | [] => Some []
  | x :: l' =>
      match f x with
      | Some y => option_map (cons y) (traverse f l')
      | None => None
      end
  end.

(** [rollupOptions.input], for any conversion of a file to its path.
    [files] is what [glob.sync("lib/**/*.{ts,tsx}")] returned, in the
    order it returned it (glob 10 does not sort its results); [None]
    says that the configuration throws. *)
Definition inputWith (toPath : string -> option string) (root : string)
  (files : list string) : option JSObject.object :=
  option_map JSObject.fromEntries (traverse (entryPairWith toPath root) files).

(** [rollupOptions.input] *)
Definition input (root : string) (files : list string) : option JSObject.object :=
  inputWith (URL.fileURLToPath root) root files.

Inductive Classification : Type := Bundle | External.

Definition isExternal : string -> option string -> bool -> bool :=
  Rollup.idMatcher external.

(** What happens to an import: [source] is the imported identifier,
    [importer] the module that imports it. *)
Definition classify (source : string) (importer : option string)
  (isResolved : bool) : Classification :=
  if isExternal source importer isResolved then External else Bundle.

(** The file name the pattern gives the chunk of the entry [chunkName],
    before Rollup tells clashing file names apart by a number: the name
    of the chunk is the sanitized key of the entry. *)
Definition entryFileName (chunkName : string) : option string :=
  Rollup.renderNamePattern entryFileNames
    (Rollup.chunkReplacements (Rollup.sanitizeFileName chunkName)).

(** The file Rollup gives an asset emitted under [name], the bundle
    holding the files [reserved]. *)
Definition assetFileName (reserved : list string) (name : string) : option string :=
  Rollup.generateAssetFileName assetFileNames reserved name.

End ViteConfig.

(* ================================================================== *)
(** ** Style assets: what Vite emits for the CSS of a chunk *)
(* ================================================================== *)

Module ViteCss.

(** With CSS code splitting, which vite-plugin-lib-inject-css switches
    on, Vite emits the CSS of a chunk, all its stylesheets together, as
    one asset.  The asset is named after the chunk: the base name of the
    chunk's entry module (of the chunk's name, when the chunk has no
    entry module) with the extension replaced by ".css". *)
Definition cssAssetName (facade : string) : string :=
  Rollup.slice0 (Path.basename facade)
    (String.length (Path.basename facade) - String.length (Path.extname facade))
  ++ ".css".

(** A chunk that carries CSS: the id of its entry module (or its name)
    and the text of the compiled CSS. *)
Record CssChunk : Type := {
  facade : string;
  css : string
}.

(** The style assets of the chunks, emitted in the order Rollup renders
    the chunks; the result lists the path of each chunk's asset. *)
Fixpoint emitStyleAssets (e : Rollup.Emitter) (chunks : list CssChunk)
  : option (list string) :=
  match chunks with
  | [] => Some []
  | c :: rest =>
      match Rollup.emitAsset ViteConfig.assetFileNames e
              (cssAssetName (facade c)) (css c) with
      | Some (f, e') => option_map (cons f) (emitStyleAssets e' rest)
      | None => None
      end
  end.

End ViteCss.

(* ================================================================== *)
(** ** package.json *)
(* ================================================================== *)

Module PackageJson.

Definition main : string := "dist/main.js".
Definition types : string := "dist/main.d.ts".
Definition sideEffects : list string := ["**/*.css"].
Definition scripts_build : string := "tsc --p ./tsconfig-build.json && vite build".

(** A consumer's bundler keeps a module whose path one of the
    [sideEffects] globs matches. *)
Definition hasSideEffects (path : string) : bool :=
  existsb (fun g => Glob.matches g path) sideEffects.

Definition build : Shell.script := Shell.parse scripts_build.

End PackageJson.

(* ================================================================== *)
(** ** The module graph and what the output of an entry loads *)
(* ================================================================== *)

Module Build.

(** What a module imports, after resolution: a package, or a module of
    the project under its id, the absolute path of its file. *)
Inductive Import : Type :=
| Package (name : string)
| Local (id : string).

Record SourceModule : Type := {
  id : string;
  imports : list Import
}.

Definition importsOf (tree : list SourceModule) (i : string) : list Import :=
  flat_map (fun m => if String.eqb (id m) i then imports m else []) tree.

(** Module [a] imports module [b]. *)
Definition importsModule (tree : list SourceModule) (a b : string) : Prop :=
  In (Local b) (importsOf tree a).

(** A module is an entry when [input] gives its id to some name. *)
Definition isEntry (inp : JSObject.object) (i : string) : bool :=
  existsb (String.eqb i) (map snd inp).

(** Rollup gives every entry an output of its own and copies no module:
    a module that is no entry is placed with its importer or in a chunk
    the importer loads, and an import of an entry stays an import of
    that entry's output.  [pulls a b]: the code placed for [a] imports
    the output of the entry [b]. *)
Inductive pulls (inp : JSObject.object) (tree : list SourceModule)
  : string -> string -> Prop :=
| pulls_entry (a b : string) :
    importsModule tree a b -> isEntry inp b = true -> pulls inp tree a b
| pulls_through (a c b : string) :
    importsModule tree a c -> isEntry inp c = false ->
    pulls inp tree c b -> pulls inp tree a b.

(** Loading the output of entry [A] loads the output of entry [B]. *)
Definition outputLoads (inp : JSObject.object) (tree : list SourceModule)
  (A B : string) : Prop :=
  isEntry inp A = true /\ pulls inp tree A B.

Definition outputReaches (inp : JSObject.object) (tree : list SourceModule)
  : string -> string -> Prop :=
  clos_trans string (outputLoads inp tree).

(** A library in which the Card component uses the Button component. *)
Definition cardFiles : list string :=
  ["lib/components/Card/index.tsx"; "lib/components/Button/index.tsx"].

Definition cardInput : JSObject.object :=
  [("components/Card/index", "/repo/lib/components/Card/index.tsx");
   ("components/Button/index", "/repo/lib/components/Button/index.tsx")].

Definition cardTree : list SourceModule :=
  [{| id := "/repo/lib/components/Card/index.tsx";
      imports := [Package "react/jsx-runtime";
                  Local "/repo/lib/components/Button/index.tsx"] |};
   {| id := "/repo/lib/components/Button/index.tsx";
      imports := [Package "react/jsx-runtime"] |}].

(** The chunks of the repository's library that carry CSS: Button and
    Text each import the styles.module.css next to them.  The texts
    stand for the compiled rules; they differ, the class names of a CSS
    module being made unique per file. *)
Definition buttonCss : ViteCss.CssChunk :=
  {| ViteCss.facade := "/repo/lib/components/Button/index.tsx";
     ViteCss.css := "._button_1c0qk_1{}" |}.

Definition textCss : ViteCss.CssChunk :=
  {| ViteCss.facade := "/repo/lib/components/Text/index.tsx";
     ViteCss.css := "._text_9f3ab_1{}" |}.

(** The bundle when the style assets are emitted: the files of the
    entry chunks, and no asset yet. *)
Definition libraryEmitter : Rollup.Emitter :=
  {| Rollup.bundle := ["main.js"; "components/Button/index.js";
                       "components/Text/index.js"];
     Rollup.bySource := [] |}.

End Build.

(* ================================================================== *)
(** ** The properties the specification asks for *)
(* ================================================================== *)

Module Spec.

Import ViteConfig Build.

Fixpoint pathSorted (l : list string) : bool :=
  match l with
  | a :: (b :: _) as rest => (a <=? b) && pathSorted rest
  | _ => true
  end.

(** The discovered entries come sorted by path. *)
Definition discoverySorted (root : string) (files : list string) : Prop :=
  exists o, input root files = Some o /\ pathSorted (map snd o) = true.

(** Tree-shakability as the specification words it: no entry's output
    reaches another entry's output through imports. *)
Definition treeShakable (inp : JSObject.object) (tree : list SourceModule) : Prop :=
  forall A B, isEntry inp A = true -> isEntry inp B = true -> A <> B ->
    ~ outputReaches inp tree A B.

(** The side-effect list matches exactly the emitted style assets. *)
Definition sideEffectsExact (emitted : list string) : Prop :=
  forall p, PackageJson.hasSideEffects p = true <-> In p emitted.

(** Two files with one logical name leave no entry under that name. *)
Definition collisionRejected (root : string) (files : list string) : Prop :=
  forall f g, In f files -> In g files -> f <> g ->
    logicalName root f = logicalName root g ->
    forall o, input root files = Some o ->
      JSObject.get (logicalName root f) o = None.

(** The style asset of a chunk is written under the base name of the
    stylesheet the chunk imports. *)
Definition namedAfterStylesheet (stylesheet path : string) : Prop :=
  path = "assets/" ++ Path.basename stylesheet.

(** Two chunks with stylesheets of one base name get one asset path. *)
Definition sameAssetPath (paths : list string) : Prop :=
  exists p, paths = [p; p].

(** The style asset of a chunk is written directly below assets/ under
    the sanitized base name of the chunk's entry module, its extension
    replaced by ".css", with a number from 2 on in between when needed. *)
Definition namedAfterChunk (facade path : string) : Prop :=
  exists stem number,
    ViteCss.cssAssetName facade = stem ++ ".css"
    /\ path = "assets/" ++ Rollup.sanitizeFileName stem ++ number ++ ".css"
    /\ Path.noSlash (Rollup.sanitizeFileName stem ++ number ++ ".css") = true
    /\ (number = "" \/ exists j, 2 <= j /\ number = Rollup.decimal j).

(** A small file system for trying the build script: the paths of the
    files present.  Its tsc rejects a tree that holds lib/broken.ts and
    writes nothing; its vite writes dist/main.js. *)
Definition toyHasError (fs : list string) : Prop :=
  existsb (String.eqb "lib/broken.ts") fs = true.

Definition toyExec (command : string) : Shell.program (list string) :=
  fun fs =>
    if String.eqb command "tsc --p ./tsconfig-build.json" then
      (if existsb (String.eqb "lib/broken.ts") fs then 2%Z else 0%Z, fs)
    else if String.eqb command "vite build" then (0%Z, "dist/main.js" :: fs)
    else (127%Z, fs).

End Spec.

(* ================================================================== *)
(** ** Shapes of paths *)
(* ================================================================== *)

Module PathShape.

(** A segment that normalisation leaves alone: not empty, not ".",
    not "..". *)
Definition plain (seg : string) : bool :=
  Path.nonempty seg && negb (String.eqb seg ".") && negb (String.eqb seg "..").

(** No "." occurs in [s]. *)
Fixpoint noDot (s : string) : bool :=
  match s with
  | EmptyString => true
  | String c s' => negb (Path.is_dot c) && noDot s'
  end.

End PathShape.

(* ================================================================== *)
(** ** The components: Button and Text *)
(* ================================================================== *)

Module Components.

(** What a component returns: the host tag and the props handed to it.
    Property values are kept as strings. *)
Record Element : Type := {
  tag : string;
  props : JSObject.object
}.

(** A value of type [string | undefined] inside a template literal. *)
Definition templateValue (v : option string) : string :=
  match v with
  | Some s => s
  | None => "undefined"
  end.

(** [const { a, ...rest } = props]: the own properties of [props] other
    than the ones taken out, in their order. *)
Definition restWithout (taken : list string) (props : JSObject.object)
  : JSObject.object :=
  filter (fun kv => negb (existsb (String.eqb (fst kv)) taken)) props.

(** [{ ...target, ...source }]: the properties of [source] are assigned
    to [target] in order. *)
Definition assign (target source : JSObject.object) : JSObject.object :=
  fold_left (fun o kv => JSObject.set (fst kv) (snd kv) o) source target.

(** [Button]: [styles_button] is the class name that the CSS module
    gives for [styles.button]. *)
Definition Button (styles_button : string) (props : JSObject.object) : Element :=
  let className := JSObject.get "className" props in
  let restProps := restWithout ["className"] props in
  {| tag := "button";
     props := assign
                [("className", templateValue className ++ " " ++ styles_button)]
                restProps |}.

(** [Text]: takes [children] and [className] out of its props and uses
    nothing else; a [children] that is undefined is left out. *)
Definition Text (styles_text : string) (props : JSObject.object) : Element :=
  let children := JSObject.get "children" props in
  let className := JSObject.get "className" props in
  {| tag := "p";
     props := ("className", styles_text ++ " " ++ templateValue className)
              :: match children with
                 | Some c => [("children", c)]
                 | None => []
                 end |}.

End Components.

(* ================================================================== *)
(** * Worked examples *)
(* ================================================================== *)

Example extname_tsx : Path.extname "lib/components/Button/index.tsx" = ".tsx".
Proof. reflexivity. Qed.

Example extname_declaration : Path.extname "lib/vite-env.d.ts" = ".ts".
Proof. reflexivity. Qed.

Example extname_edge_cases :
  map Path.extname ["a.b/"; ".."; "..."; "a."; ".a"; "..a"; "x/.a.b"; ""; "/"]
  = [".b"; ""; "."; "."; ""; ".a"; ".b"; ""; ""].
Proof. reflexivity. Qed.

Example relative_examples :
  Path.relative "/repo" "lib" "lib/components/Text/index" = "components/Text/index"
  /\ Path.relative "/repo" "lib" "lib" = ""
  /\ Path.relative "/repo" "lib" "src/App" = "../src/App".
Proof. repeat split. Qed.

Example logicalName_declaration :
  ViteConfig.logicalName "/repo" "lib/vite-env.d.ts" = "vite-env.d".
Proof. reflexivity. Qed.

Example fileURLToPath_examples :
  map (URL.fileURLToPath "/repo")
      ["lib/main.ts"; "lib/a b.ts"; "lib/a#b.ts"; "lib/a?b.ts"; "lib/%41.ts";
       "lib/100%.ts"; "lib/%2Fa.ts"; "lib//a.ts"; "lib/a\b.ts"; "lib/%2e%2e/a.ts"]
  = [Some "/repo/lib/main.ts"; Some "/repo/lib/a b.ts"; Some "/repo/lib/a";
     Some "/repo/lib/a"; Some "/repo/lib/A.ts";
     None; None; Some "/repo/lib//a.ts"; Some "/repo/lib/a/b.ts";
     Some "/repo/a.ts"].
Proof. reflexivity. Qed.

Example input_of_library :
  ViteConfig.input "/repo"
    ["lib/main.ts"; "lib/components/Button/index.tsx"; "lib/components/Text/index.tsx"]
  = Some [("main", "/repo/lib/main.ts");
          ("components/Button/index", "/repo/lib/components/Button/index.tsx");
          ("components/Text/index", "/repo/lib/components/Text/index.tsx")].
Proof. reflexivity. Qed.

Example input_index_keys_first :
  option_map JSObject.keys
    (ViteConfig.input "/repo" ["lib/main.ts"; "lib/10.ts"; "lib/2.ts"; "lib/01.ts"])
  = Some ["2"; "10"; "main"; "01"].
Proof. reflexivity. Qed.

Example input_throws :
  ViteConfig.input "/repo" ["lib/main.ts"; "lib/100%.ts"] = None.
Proof. reflexivity. Qed.

Example input_of_card_library :
  ViteConfig.input "/repo" Build.cardFiles = Some Build.cardInput.
Proof. reflexivity. Qed.

Example entryFileName_examples :
  map ViteConfig.entryFileName ["components/Button/index"; "a+b"; "[id]"]
  = [Some "components/Button/index.js"; Some "a_b.js"; Some "_id_.js"].
Proof. reflexivity. Qed.

Example makeUnique_examples :
  map (Rollup.makeUnique ["assets/index.css"; "assets/Index2.css"])
      ["assets/index.css"; "assets/INDEX.css"; "assets/card.css"]
  = ["assets/index3.css"; "assets/INDEX3.css"; "assets/card.css"].
Proof. reflexivity. Qed.

Example style_assets_of_library :
  ViteCss.emitStyleAssets Build.libraryEmitter [Build.buttonCss; Build.textCss]
  = Some ["assets/index.css"; "assets/index2.css"].
Proof. reflexivity. Qed.

Example classify_examples :
  map (fun id => ViteConfig.classify id None false)
      ["react"; "react-dom"; "react/jsx-runtime"; "react-dom/client"; "React"; "./react"]
  = [ViteConfig.External; ViteConfig.External; ViteConfig.External;
     ViteConfig.Bundle; ViteConfig.Bundle; ViteConfig.Bundle].
Proof. reflexivity. Qed.

Example side_effect_examples :
  map PackageJson.hasSideEffects
      ["assets/styles.module.css"; "a.css"; "dist/assets/x/y.css"; "main.js"; "a.cssx"]
  = [true; true; true; false; false].
Proof. reflexivity. Qed.

Example build_script_parsed :
  PackageJson.build
  = Shell.AndIf (Shell.Simple "tsc --p ./tsconfig-build.json") (Shell.Simple "vite build").
Proof. reflexivity. Qed.

Example toy_build_succeeds :
  Shell.run Spec.toyExec PackageJson.build ["lib/main.ts"]
  = (0%Z, ["dist/main.js"; "lib/main.ts"]).
Proof. reflexivity. Qed.

(* ================================================================== *)
(** * Facts about objects *)
(* ================================================================== *)

Section ObjectFacts.

Import JSObject.

Lemma has_true_iff (k : string) (o : object) :
  has k o = true <-> In k (keys o).
Proof.
  unfold has. induction o as [|[k' v'] o IH]; simpl.
  - split; [discriminate | tauto].
  - destruct (String.eqb_spec k k') as [->|Hne].
    + split; auto.
    + rewrite IH. split; [auto | intros [H|H]; [congruence | exact H]].
Qed.

Lemma has_false_iff (k : string) (o : object) :
  has k o = false <-> ~ In k (keys o).
Proof.
  rewrite <- has_true_iff. destruct (has k o); split; congruence.
Qed.

Lemma keys_replace (k v : string) (o : object) :
  keys (replace k v o) = keys o.
Proof.
  induction o as [|[k' v'] o IH]; simpl; [reflexivity|].
  destruct (String.eqb_spec k k') as [->|Hne]; simpl; [reflexivity|].
  now rewrite IH.
Qed.

Lemma get_replace_same (k v : string) (o : object) :
  In k (keys o) -> get k (replace k v o) = Some v.
Proof.
  induction o as [|[k' v'] o IH]; simpl; [tauto|].
  intros Hin. destruct (String.eqb_spec k k') as [->|Hne]; simpl.
  - now rewrite String.eqb_refl.
  - destruct (String.eqb_spec k k'); [congruence|].
    apply IH. destruct Hin; [congruence | assumption].
Qed.

Lemma get_replace_other (k k' v : string) (o : object) :
  k' <> k -> get k' (replace k v o) = get k' o.
Proof.
  intros Hne. induction o as [|[k0 v0] o IH]; simpl; [reflexivity|].
  destruct (String.eqb_spec k k0) as [->|Hne0]; simpl.
  - destruct (String.eqb_spec k' k0); [congruence | reflexivity].
  - now rewrite IH.
Qed.

Lemma in_keys_insert_index (n : N) (k v x : string) (o : object) :
  In x (keys (insert_index n k v o)) <-> x = k \/ In x (keys o).
Proof.
  induction o as [|[k' v'] o IH]; simpl.
  - intuition congruence.
  - destruct (array_index k') as [m|]; [destruct (n <? m)%N|]; simpl;
      try rewrite IH; intuition congruence.
Qed.

Lemma get_insert_index_same (n : N) (k v : string) (o : object) :
  ~ In k (keys o) -> get k (insert_index n k v o) = Some v.
Proof.
  induction o as [|[k' v'] o IH]; simpl; intros Hnin.
  - now rewrite String.eqb_refl.
  - destruct (array_index k') as [m|]; [destruct (n <? m)%N|]; simpl;
      try (now rewrite String.eqb_refl).
    destruct (String.eqb_spec k k') as [->|Hne]; [tauto|].
    apply IH. tauto.
Qed.

Lemma get_insert_index_other (n : N) (k k' v : string) (o : object) :
  k' <> k -> get k' (insert_index n k v o) = get k' o.
Proof.
  intros Hne. induction o as [|[k0 v0] o IH]; simpl.
  - destruct (String.eqb_spec k' k); congruence.
  - destruct (array_index k0) as [m|]; [destruct (n <? m)%N|]; simpl;
      try (destruct (String.eqb_spec k' k); congruence).
    now rewrite IH.
Qed.

Lemma get_app (k : string) (o1 o2 : object) :
  get k (o1 ++ o2)%list = match get k o1 with Some v => Some v | None => get k o2 end.
Proof.
  induction o1 as [|[k' v'] o1 IH]; simpl; [reflexivity|].
  destruct (String.eqb k k'); [reflexivity | exact IH].
Qed.

Lemma get_none_iff (k : string) (o : object) :
  get k o = None <-> ~ In k (keys o).
Proof.
  rewrite <- has_false_iff. unfold has. destruct (get k o); split; congruence.
Qed.

Lemma get_set_same (k v : string) (o : object) :
  get k (set k v o) = Some v.
Proof.
  unfold set. destruct (has k o) eqn:Hh.
  - apply get_replace_same. now apply has_true_iff.
  - apply has_false_iff in Hh. destruct (array_index k) as [n|].
    + now apply get_insert_index_same.
    + rewrite get_app. apply get_none_iff in Hh. rewrite Hh. simpl.
      now rewrite String.eqb_refl.
Qed.

Lemma get_set_other (k k' v : string) (o : object) :
  k' <> k -> get k' (set k v o) = get k' o.
Proof.
  intros Hne. unfold set. destruct (has k o).
  - now apply get_replace_other.
  - destruct (array_index k) as [n|].
    + now apply get_insert_index_other.
    + rewrite get_app. simpl. destruct (String.eqb_spec k' k); [congruence|].
      now destruct (get k' o).
Qed.

Lemma NoDup_keys_insert_index (n : N) (k v : string) (o : object) :
  ~ In k (keys o) -> NoDup (keys o) -> NoDup (keys (insert_index n k v o)).
Proof.
  induction o as [|[k' v'] o IH]; simpl; intros Hnin Hnd.
  - constructor; [tauto | constructor].
  - inversion Hnd as [|? ? Hk' Hnd']; subst.
    destruct (array_index k') as [m|]; [destruct (n <? m)%N|]; simpl.
    + constructor; [simpl; tauto | exact Hnd].
    + constructor.
      * rewrite in_keys_insert_index. intros [->|H]; tauto.
      * apply IH; tauto.
    + constructor; [simpl; tauto | exact Hnd].
Qed.

Lemma NoDup_keys_set (k v : string) (o : object) :
  NoDup (keys o) -> NoDup (keys (set k v o)).
Proof.
  intros Hnd. unfold set. destruct (has k o) eqn:Hh.
  - now rewrite keys_replace.
  - apply has_false_iff in Hh. destruct (array_index k) as [n|].
    + now apply NoDup_keys_insert_index.
    + unfold keys. rewrite map_app. simpl.
      apply NoDup_app; [exact Hnd | constructor; [tauto | constructor] |].
      intros x Hx [<-|[]]. now apply Hh.
Qed.

Lemma NoDup_keys_fold (entries : list (string * string)) (o : object) :
  NoDup (keys o) ->
  NoDup (keys (fold_left (fun o kv => set (fst kv) (snd kv) o) entries o)).
Proof.
  revert o. induction entries as [|[k v] entries IH]; simpl; intros o Hnd.
  - exact Hnd.
  - apply IH. now apply NoDup_keys_set.
Qed.

Lemma get_fold_other (k : string) (entries : list (string * string)) (o : object) :
  (forall kv, In kv entries -> fst kv <> k) ->
  get k (fold_left (fun o kv => set (fst kv) (snd kv) o) entries o) = get k o.
Proof.
  revert o. induction entries as [|[k' v'] entries IH]; simpl; intros o Hall.
  - reflexivity.
  - rewrite IH by (intros kv Hkv; apply Hall; now right).
    apply get_set_other. intros Heq. apply (Hall (k', v')); [now left | now symmetry].
Qed.

(** The last assignment to a key decides its value. *)
Lemma get_fromEntries_last (k v : string) (pre post : list (string * string)) :
  (forall kv, In kv post -> fst kv <> k) ->
  get k (fromEntries (pre ++ (k, v) :: post)) = Some v.
Proof.
  intros Hpost. unfold fromEntries. rewrite fold_left_app. simpl.
  rewrite get_fold_other by exact Hpost. apply get_set_same.
Qed.

Lemma NoDup_keys_fromEntries (entries : list (string * string)) :
  NoDup (keys (fromEntries entries)).
Proof. apply NoDup_keys_fold. constructor. Qed.

Lemma fold_set_fresh (entries : list (string * string)) (o : object) :
  NoDup (map fst entries) ->
  (forall kv, In kv entries -> array_index (fst kv) = None) ->
  (forall kv, In kv entries -> ~ In (fst kv) (keys o)) ->
  fold_left (fun o kv => set (fst kv) (snd kv) o) entries o = (o ++ entries)%list.
Proof.
  revert o. induction entries as [|[k v] entries IH]; simpl; intros o Hnd Hidx Hfresh.
  - now rewrite app_nil_r.
  - inversion Hnd as [|? ? Hk Hnd']; subst.
    assert (Hset : set k v o = (o ++ [(k, v)])%list).
    { unfold set.
      assert (Hh : has k o = false)
        by (apply has_false_iff; apply (Hfresh (k, v)); now left).
      rewrite Hh. pose proof (Hidx (k, v) (or_introl eq_refl)) as Hi.
      simpl in Hi. now rewrite Hi. }
    rewrite Hset, IH; auto.
    + now rewrite <- app_assoc.
    + intros kv Hkv. unfold keys. rewrite map_app, in_app_iff. simpl.
      intros [H|[H|[]]].
      * apply (Hfresh kv); [now right | exact H].
      * apply Hk. rewrite H. now apply in_map.
Qed.

(** With distinct keys, none of them an array index, the object lists
    the pairs as they were given. *)
Lemma fromEntries_fresh (entries : list (string * string)) :
  NoDup (map fst entries) ->
  (forall kv, In kv entries -> array_index (fst kv) = None) ->
  fromEntries entries = entries.
Proof.
  intros Hnd Hidx. unfold fromEntries. now rewrite fold_set_fresh.
Qed.

End ObjectFacts.

(* ================================================================== *)
(** * Entry discovery and the input object *)
(* ================================================================== *)

Section InputFacts.

Import ViteConfig.

Variable toPath : string -> option string.
Variable root : string.

Lemma traverse_app {A B : Type} (f : A -> option B) (l1 l2 : list A) :
  traverse f (l1 ++ l2)%list
  = match traverse f l1, traverse f l2 with
    | Some y1, Some y2 => Some (y1 ++ y2)%list
    | _, _ => None
    end.
Proof.
  induction l1 as [|x l1 IH]; simpl.
  - now destruct (traverse f l2).
  - destruct (f x) as [y|]; [|reflexivity].
    rewrite IH. destruct (traverse f l1), (traverse f l2); reflexivity.
Qed.

Lemma traverse_None_iff {A B : Type} (f : A -> option B) (l : list A) :
  traverse f l = None <-> exists x, In x l /\ f x = None.
Proof.
  induction l as [|x l IH]; simpl.
  - split; [discriminate | intros [y [[] _]]].
  - destruct (f x) as [y|] eqn:Hx.
    + destruct (traverse f l) as [ys|]; simpl.
      * split; [discriminate|]. intros [z [[<-|Hz] Hn]]; [congruence|].
        exfalso. assert (Hc : Some ys = None) by (apply (proj2 IH); now exists z).
        discriminate Hc.
      * split; [|reflexivity]. intros _.
        destruct (proj1 IH eq_refl) as [z [Hz Hn]]. exists z. auto.
    + split; [|reflexivity]. intros _. exists x. auto.
Qed.

Lemma entryPairWith_None (f : string) :
  entryPairWith toPath root f = None <-> toPath f = None.
Proof.
  unfold entryPairWith. destruct (toPath f); simpl; split; congruence.
Qed.

Lemma traverse_pairs_keys (files : list string) (ps : list (string * string)) :
  traverse (entryPairWith toPath root) files = Some ps ->
  map fst ps = map (logicalName root) files.
Proof.
  revert ps. induction files as [|f files IH]; simpl; intros ps H.
  - inversion H. reflexivity.
  - unfold entryPairWith at 1 in H. destruct (toPath f) as [v|]; [|discriminate].
    simpl in H.
    destruct (traverse (entryPairWith toPath root) files) as [qs|]; [|discriminate].
    inversion H; subst. simpl. now rewrite (IH qs eq_refl).
Qed.

(** The configuration throws exactly when the conversion of one of the
    listed files does. *)
Lemma inputWith_None_iff (files : list string) :
  inputWith toPath root files = None
  <-> exists f, In f files /\ toPath f = None.
Proof.
  unfold inputWith.
  destruct (traverse (entryPairWith toPath root) files) as [ps|] eqn:Ht; simpl.
  - split; [discriminate|]. intros [f [Hf Hn]].
    assert (Hnone : traverse (entryPairWith toPath root) files = None).
    { apply traverse_None_iff. exists f. split; [exact Hf|].
      now apply entryPairWith_None. }
    congruence.
  - split; [|reflexivity]. intros _. apply traverse_None_iff in Ht.
    destruct Ht as [f [Hf Hn]]. exists f. split; [exact Hf|].
    now apply entryPairWith_None.
Qed.

Lemma inputWith_last (pre : list string) (f : string) (post : list string)
  (o : JSObject.object) :
  (forall g, In g post -> logicalName root g <> logicalName root f) ->
  inputWith toPath root (pre ++ f :: post)%list = Some o ->
  JSObject.get (logicalName root f) o = toPath f.
Proof.
  intros Hpost. unfold inputWith. rewrite traverse_app. simpl.
  destruct (traverse (entryPairWith toPath root) pre) as [ps1|]; [|discriminate].
  unfold entryPairWith at 1. destruct (toPath f) as [v|]; [|discriminate].
  simpl.
  destruct (traverse (entryPairWith toPath root) post) as [ps2|] eqn:H2;
    [|discriminate].
  simpl. intros H. inversion H; subst.
  apply get_fromEntries_last.
  intros kv Hkv. pose proof (traverse_pairs_keys post ps2 H2) as Hkeys.
  assert (Hin : In (fst kv) (map (logicalName root) post))
    by (rewrite <- Hkeys; now apply in_map).
  apply in_map_iff in Hin. destruct Hin as [g [<- Hg]]. now apply Hpost.
Qed.

Lemma inputWith_keys_NoDup (files : list string) (o : JSObject.object) :
  inputWith toPath root files = Some o -> NoDup (JSObject.keys o).
Proof.
  unfold inputWith.
  destruct (traverse (entryPairWith toPath root) files) as [ps|]; [|discriminate].
  simpl. intros H. inversion H. apply NoDup_keys_fromEntries.
Qed.

End InputFacts.

(** C5, as stated, fails: of two files with the logical name "Button"
    the input object keeps an entry, and nothing is rejected. *)
Lemma collision_not_rejected :
  ~ Spec.collisionRejected "/repo" ["lib/Button.ts"; "lib/Button.tsx"].
Proof.
  intros H.
  specialize (H "lib/Button.ts" "lib/Button.tsx").
  assert (Hget : JSObject.get (ViteConfig.logicalName "/repo" "lib/Button.ts")
                   [("Button", "/repo/lib/Button.tsx")]
                 = Some "/repo/lib/Button.tsx") by reflexivity.
  rewrite H in Hget.
  - discriminate.
  - simpl; auto.
  - simpl; auto.
  - discriminate.
  - reflexivity.
  - reflexivity.
Qed.

(** C5 (amended): when several files share a logical name, the input
    object holds that name once, bound to the path of the last of them
    in the glob's order; the other files get no entry of their own.  The
    collision raises no error: the configuration throws only when the
    conversion of some listed file to a path throws. *)
Theorem input_last_file_wins (toPath : string -> option string) (root : string)
  (pre : list string) (f : string) (post : list string) :
  (forall g, In g post ->
     ViteConfig.logicalName root g <> ViteConfig.logicalName root f) ->
  (forall o,
     ViteConfig.inputWith toPath root (pre ++ f :: post)%list = Some o ->
     JSObject.get (ViteConfig.logicalName root f) o = toPath f
     /\ NoDup (JSObject.keys o))
  /\ (ViteConfig.inputWith toPath root (pre ++ f :: post)%list = None
      <-> exists g, In g (pre ++ f :: post)%list /\ toPath g = None).
Proof.
  intros Hpost. split; [|apply inputWith_None_iff].
  intros o Ho. split.
  - now apply (inputWith_last toPath root pre f post).
  - now apply (inputWith_keys_NoDup toPath root (pre ++ f :: post)%list).
Qed.

Lemma input_last_file_wins_witness :
  (forall g, In g ["lib/main.ts"] ->
     ViteConfig.logicalName "/repo" g
     <> ViteConfig.logicalName "/repo" "lib/Button.tsx")
  /\ JSObject.get "Button"
       [("Button", "/repo/lib/Button.tsx"); ("main", "/repo/lib/main.ts")]
     = Some "/repo/lib/Button.tsx".
Proof.
  assert (Hpost : forall g, In g ["lib/main.ts"] ->
            ViteConfig.logicalName "/repo" g
            <> ViteConfig.logicalName "/repo" "lib/Button.tsx").
  { intros g [<-|[]]. discriminate. }
  split; [exact Hpost|].
  exact (proj1 (proj1 (input_last_file_wins (URL.fileURLToPath "/repo") "/repo"
                         ["lib/Button.ts"] "lib/Button.tsx" ["lib/main.ts"] Hpost)
                  [("Button", "/repo/lib/Button.tsx"); ("main", "/repo/lib/main.ts")]
                  eq_refl)).
Defined.

(** C7, as stated, fails: the entries keep the order in which the glob
    listed the files, sorted or not. *)
Lemma discovery_not_sorted :
  ~ Spec.discoverySorted "/repo" ["lib/b.ts"; "lib/a.ts"].
Proof.
  intros [o [Ho Hs]].
  assert (Hin : ViteConfig.input "/repo" ["lib/b.ts"; "lib/a.ts"]
                = Some [("b", "/repo/lib/b.ts"); ("a", "/repo/lib/a.ts")])
    by reflexivity.
  rewrite Hin in Ho. inversion Ho; subst. discriminate Hs.
Qed.

(** C7 (amended): discovery is a function of the glob's listing alone
    and sorts nothing.  For files with distinct logical names, none of
    them an array index, [input] lists one entry per file in the order
    the glob returned the files; the expression throws exactly when the
    conversion of some listed file to a path throws, and raises no error
    of its own. *)
Theorem input_follows_glob_order (toPath : string -> option string)
  (root : string) (files : list string) :
  NoDup (map (ViteConfig.logicalName root) files) ->
  (forall f, In f files ->
     JSObject.array_index (ViteConfig.logicalName root f) = None) ->
  ViteConfig.inputWith toPath root files
  = ViteConfig.traverse (ViteConfig.entryPairWith toPath root) files
  /\ (ViteConfig.inputWith toPath root files = None
      <-> exists f, In f files /\ toPath f = None).
Proof.
  intros Hnd Hidx. split; [|apply inputWith_None_iff].
  unfold ViteConfig.inputWith.
  destruct (ViteConfig.traverse (ViteConfig.entryPairWith toPath root) files)
    as [ps|] eqn:Ht; [|reflexivity].
  simpl. f_equal. pose proof (traverse_pairs_keys toPath root files ps Ht) as Hkeys.
  apply fromEntries_fresh.
  - now rewrite Hkeys.
  - intros kv Hkv.
    assert (Hin : In (fst kv) (map (ViteConfig.logicalName root) files))
      by (rewrite <- Hkeys; now apply in_map).
    apply in_map_iff in Hin. destruct Hin as [f [<- Hf]]. now apply Hidx.
Qed.

Lemma input_follows_glob_order_witness :
  NoDup (map (ViteConfig.logicalName "/repo") ["lib/b.ts"; "lib/a.ts"])
  /\ (forall f, In f ["lib/b.ts"; "lib/a.ts"] ->
        JSObject.array_index (ViteConfig.logicalName "/repo" f) = None)
  /\ ViteConfig.input "/repo" ["lib/b.ts"; "lib/a.ts"]
     = Some [("b", "/repo/lib/b.ts"); ("a", "/repo/lib/a.ts")].
Proof.
  assert (Hnd : NoDup (map (ViteConfig.logicalName "/repo") ["lib/b.ts"; "lib/a.ts"])).
  { repeat constructor; simpl; intuition discriminate. }
  assert (Hidx : forall f, In f ["lib/b.ts"; "lib/a.ts"] ->
            JSObject.array_index (ViteConfig.logicalName "/repo" f) = None).
  { intros f [<-|[<-|[]]]; reflexivity. }
  split; [exact Hnd | split; [exact Hidx |]].
  exact (proj1 (input_follows_glob_order (URL.fileURLToPath "/repo") "/repo"
                  ["lib/b.ts"; "lib/a.ts"] Hnd Hidx)).
Defined.

(* ================================================================== *)
(** * The dependency classifier *)
(* ================================================================== *)

(** C8: an import is External exactly when its identifier is one of the
    strings of [external], Bundle otherwise, whatever module imports it. *)
Theorem classify_exact_and_uniform (source : string)
  (importer1 importer2 : option string) (resolved1 resolved2 : bool) :
  (ViteConfig.classify source importer1 resolved1 = ViteConfig.External
   <-> In source ViteConfig.external)
  /\ (ViteConfig.classify source importer1 resolved1 = ViteConfig.Bundle
      <-> ~ In source ViteConfig.external)
  /\ ViteConfig.classify source importer1 resolved1
     = ViteConfig.classify source importer2 resolved2.
Proof.
  unfold ViteConfig.classify, ViteConfig.isExternal, Rollup.idMatcher.
  assert (Hex : existsb (String.eqb source) ViteConfig.external = true
                <-> In source ViteConfig.external).
  { rewrite existsb_exists. split.
    - intros [x [Hx Heq]]. apply String.eqb_eq in Heq. now subst.
    - intros Hin. exists source. split; [exact Hin | apply String.eqb_refl]. }
  destruct (existsb (String.eqb source) ViteConfig.external).
  - split; [tauto | split; [|reflexivity]].
    split; [discriminate | intros Hn; exfalso; apply Hn; now apply Hex].
  - split; [|split; [|reflexivity]].
    + split; [discriminate | intros Hin; now apply Hex in Hin].
    + split; [intros _ Hin; apply Hex in Hin; discriminate | reflexivity].
Qed.

(* ================================================================== *)
(** * Paths *)
(* ================================================================== *)

Section PathFacts.

Import Path.

Lemma append_nil_r (s : string) : s ++ "" = s.
Proof. induction s as [|c s IH]; simpl; [reflexivity | now rewrite IH]. Qed.

Lemma append_assoc (a b c : string) : (a ++ b) ++ c = a ++ (b ++ c).
Proof. induction a as [|x a IH]; simpl; [reflexivity | now rewrite IH]. Qed.

Lemma split_noSlash (p : string) :
  Forall (fun seg => noSlash seg = true) (split p).
Proof.
  induction p as [|c p IH]; simpl.
  - repeat constructor.
  - destruct (is_slash c) eqn:Hc.
    + constructor; [reflexivity | exact IH].
    + destruct (split p) as [|seg rest].
      * repeat constructor. simpl. now rewrite Hc.
      * inversion IH; subst. constructor; [|assumption].
        simpl. now rewrite Hc.
Qed.

Lemma split_of_noSlash (b : string) : noSlash b = true -> split b = [b].
Proof.
  induction b as [|c b IH]; simpl; [reflexivity|].
  intros H. apply andb_true_iff in H. destruct H as [Hc Hb].
  apply negb_true_iff in Hc. rewrite Hc, (IH Hb). reflexivity.
Qed.

Lemma last_Forall {A : Type} (P : A -> Prop) (l : list A) (d : A) :
  Forall P l -> P d -> P (last l d).
Proof.
  intros Hl Hd. induction Hl as [|x l Hx Hl IH]; simpl; [exact Hd|].
  destruct l; [exact Hx | exact IH].
Qed.

Lemma basename_noSlash (p : string) : noSlash (basename p) = true.
Proof.
  unfold basename. apply last_Forall; [|reflexivity].
  apply Forall_forall. intros seg Hseg. apply filter_In in Hseg.
  destruct Hseg as [Hseg _].
  exact (proj1 (Forall_forall _ _) (split_noSlash p) seg Hseg).
Qed.

Lemma basename_of_noSlash (b : string) : noSlash b = true -> basename b = b.
Proof.
  intros H. unfold basename. rewrite (split_of_noSlash b H). simpl.
  destruct b; reflexivity.
Qed.

(** The base name of a base name is itself, so the extension of a path
    is that of its base name. *)
Lemma basename_idem (p : string) : basename (basename p) = basename p.
Proof. apply basename_of_noSlash, basename_noSlash. Qed.

Lemma extname_basename (p : string) : extname (basename p) = extname p.
Proof. unfold extname. now rewrite basename_idem. Qed.

Lemma noSlash_app (a b : string) :
  noSlash (a ++ b) = noSlash a && noSlash b.
Proof.
  induction a as [|c a IH]; simpl; [reflexivity|].
  rewrite IH. now rewrite andb_assoc.
Qed.

(** Every string is free of "/" or ends in a "/" followed by a part
    free of it. *)
Lemma last_slash_split (x : string) :
  noSlash x = true
  \/ exists d t, x = d ++ String "/" t /\ noSlash t = true.
Proof.
  induction x as [|c x IH]; [now left|].
  destruct IH as [Hx | [d [t [-> Ht]]]].
  - destruct (is_slash c) eqn:Hc.
    + right. exists "", x. split; [|exact Hx].
      unfold is_slash in Hc. apply Ascii.eqb_eq in Hc. now subst.
    + left. simpl. now rewrite Hc.
  - right. exists (String c d), t. split; [reflexivity | exact Ht].
Qed.

End PathFacts.

(* ================================================================== *)
(** * Strings *)
(* ================================================================== *)

Section StringFacts.

Lemma length_append (a b : string) :
  String.length (a ++ b) = String.length a + String.length b.
Proof. induction a as [|c a IH]; simpl; [reflexivity | now rewrite IH]. Qed.

Lemma substring_prefix (pre e : string) :
  String.substring 0 (String.length pre) (pre ++ e) = pre.
Proof.
  induction pre as [|c pre IH]; simpl.
  - destruct e; reflexivity.
  - now rewrite IH.
Qed.

Lemma last_dot_suffix_is_suffix (b e : string) :
  Path.last_dot_suffix b = Some e -> exists pre, b = pre ++ e.
Proof.
  revert e. induction b as [|c b IH]; simpl; intros e H; [discriminate|].
  destruct (Path.last_dot_suffix b) as [e'|].
  - inversion H; subst. destruct (IH e eq_refl) as [pre ->].
    now exists (String c pre).
  - destruct (Path.is_dot c); [|discriminate].
    inversion H; subst. now exists "".
Qed.

Lemma extname_is_suffix (p : string) :
  exists pre, Path.basename p = pre ++ Path.extname p.
Proof.
  unfold Path.extname. destruct (String.eqb (Path.basename p) "..").
  - exists (Path.basename p). now rewrite append_nil_r.
  - destruct (Path.basename p) as [|c b'] eqn:Hb.
    + now exists "".
    + destruct (Path.last_dot_suffix b') as [e|] eqn:He.
      * destruct (last_dot_suffix_is_suffix b' e He) as [pre ->].
        now exists (String c pre).
      * exists (String c b'). now rewrite append_nil_r.
Qed.

(** Name and extension put together again give the file name. *)
Lemma stem_extname (p : string) :
  Rollup.slice0 (Path.basename p)
    (String.length (Path.basename p) - String.length (Path.extname p))
  ++ Path.extname p
  = Path.basename p.
Proof.
  destruct (extname_is_suffix p) as [pre Hpre].
  rewrite Hpre at 1 2. rewrite length_append.
  replace (String.length pre + String.length (Path.extname p)
           - String.length (Path.extname p))
    with (String.length pre) by lia.
  unfold Rollup.slice0. rewrite substring_prefix. now rewrite Hpre.
Qed.

Lemma append_inj_l (a b s : string) : a ++ s = b ++ s -> a = b.
Proof.
  revert b. induction a as [|x a IH]; intros [|y b] H; simpl in H.
  - reflexivity.
  - exfalso. apply (f_equal String.length) in H. simpl in H.
    rewrite length_append in H. lia.
  - exfalso. apply (f_equal String.length) in H. simpl in H.
    rewrite length_append in H. lia.
  - inversion H; subst. f_equal. now apply IH.
Qed.

End StringFacts.

(* ================================================================== *)
(** * The side-effect glob *)
(* ================================================================== *)

Section GlobFacts.

Import Glob.

Lemma star_skip (k : string -> bool) (t rest : string) :
  Path.noSlash t = true -> k rest = true -> star k (t ++ rest) = true.
Proof.
  intros Ht Hk. induction t as [|c t IH]; simpl.
  - destruct rest; simpl; rewrite Hk; reflexivity.
  - simpl in Ht. apply andb_true_iff in Ht. destruct Ht as [Hc Ht].
    rewrite Hc, (IH Ht). simpl. apply orb_true_r.
Qed.

Lemma dirs_after_slash (k : string -> bool) (d s : string) :
  k s = true -> dirs k (d ++ String "/" s) = true.
Proof.
  intros Hk. induction d as [|c d IH]; simpl.
  - now rewrite Hk.
  - rewrite IH. apply orb_true_r.
Qed.

(** Below a directory, whatever ends in ".css" is matched by "**/*.css". *)
Lemma css_glob_matches (dir x : string) :
  matches "**/*.css" (dir ++ String "/" (x ++ ".css")) = true.
Proof.
  unfold matches.
  change (parse "**/*.css")
    with [GlobstarSlash; Star; Lit "."; Lit "c"; Lit "s"; Lit "s"].
  set (k := matchTokens [Star; Lit "."; Lit "c"; Lit "s"; Lit "s"]).
  assert (Hk : forall t, Path.noSlash t = true -> k (t ++ ".css") = true).
  { intros t Ht. unfold k. cbn [matchTokens].
    apply star_skip; [exact Ht | reflexivity]. }
  cbn [matchTokens]. fold k. apply orb_true_iff. right.
  destruct (last_slash_split x) as [Hx | [d [t [-> Ht]]]].
  - apply dirs_after_slash. now apply Hk.
  - replace (dir ++ String "/" ((d ++ String "/" t) ++ ".css"))
      with ((dir ++ String "/" d) ++ String "/" (t ++ ".css")).
    + apply dirs_after_slash. now apply Hk.
    + rewrite !append_assoc. reflexivity.
Qed.

Lemma css_asset_has_side_effects (x : string) :
  PackageJson.hasSideEffects ("assets/" ++ x ++ ".css") = true.
Proof.
  unfold PackageJson.hasSideEffects, PackageJson.sideEffects. simpl existsb.
  rewrite orb_false_r.
  exact (css_glob_matches "assets" x).
Qed.

End GlobFacts.

(* ================================================================== *)
(** * More about the side-effect glob *)
(* ================================================================== *)

Section GlobExact.

Import Glob.

Lemma literal_css_inv (s : string) :
  matchTokens [Lit "."; Lit "c"; Lit "s"; Lit "s"] s = true -> s = ".css".
Proof.
  intros H.
  do 4 (destruct s as [|? s]; [discriminate|];
        cbn [matchTokens] in H; apply andb_true_iff in H;
        let E := fresh "E" in destruct H as [E H];
        apply Ascii.eqb_eq in E; subst).
  destruct s; [reflexivity | discriminate].
Qed.

Lemma star_css_inv (s : string) :
  star (matchTokens [Lit "."; Lit "c"; Lit "s"; Lit "s"]) s = true ->
  exists x, s = x ++ ".css".
Proof.
  induction s as [|c s IH].
  - simpl. discriminate.
  - cbn [star]. intros H. apply orb_true_iff in H. destruct H as [H|H].
    + apply literal_css_inv in H. now exists "".
    + apply andb_true_iff in H. destruct H as [_ H].
      destruct (IH H) as [x ->]. now exists (String c x).
Qed.

Lemma dirs_css_inv (s : string) :
  dirs (matchTokens [Star; Lit "."; Lit "c"; Lit "s"; Lit "s"]) s = true ->
  exists x, s = x ++ ".css".
Proof.
  induction s as [|c s IH]; cbn [dirs]; [discriminate|].
  intros H. apply orb_true_iff in H. destruct H as [H|H].
  - apply andb_true_iff in H. destruct H as [_ H]. cbn [matchTokens] in H.
    destruct (star_css_inv s H) as [x ->]. now exists (String c x).
  - destruct (IH H) as [x ->]. now exists (String c x).
Qed.

Lemma css_glob_iff (s : string) :
  matches "**/*.css" s = true <-> exists x, s = x ++ ".css".
Proof.
  unfold matches.
  change (parse "**/*.css")
    with [GlobstarSlash; Star; Lit "."; Lit "c"; Lit "s"; Lit "s"].
  split.
  - cbn [matchTokens]. intros H. apply orb_true_iff in H. destruct H as [H|H].
    + now apply star_css_inv.
    + now apply dirs_css_inv.
  - intros [x ->]. cbn [matchTokens]. apply orb_true_iff.
    destruct (last_slash_split x) as [Hx | [d [t [-> Ht]]]].
    + left. apply star_skip; [exact Hx | reflexivity].
    + right. rewrite append_assoc. simpl.
      apply dirs_after_slash. cbn [matchTokens].
      apply star_skip; [exact Ht | reflexivity].
Qed.

Lemma hasSideEffects_iff (s : string) :
  PackageJson.hasSideEffects s = true <-> exists x, s = x ++ ".css".
Proof.
  unfold PackageJson.hasSideEffects, PackageJson.sideEffects. simpl existsb.
  rewrite orb_false_r. apply css_glob_iff.
Qed.

Lemma append_inj_len (a b s1 s2 : string) :
  a ++ s1 = b ++ s2 -> String.length s1 = String.length s2 -> s1 = s2.
Proof.
  revert b. induction a as [|x a IH]; intros [|y b] H Hlen; simpl in H.
  - exact H.
  - exfalso. subst s1. simpl in Hlen. rewrite length_append in Hlen. lia.
  - exfalso. subst s2. simpl in Hlen. rewrite length_append in Hlen. lia.
  - inversion H; subst. now apply (IH b).
Qed.

End GlobExact.

(** X3: the side-effect list of package.json marks exactly the paths
    that end in ".css": every such path has side effects, and no other
    path has. *)
Theorem side_effects_are_exactly_css_paths (path : string) :
  PackageJson.hasSideEffects path = true <-> exists x, path = x ++ ".css".
Proof. apply hasSideEffects_iff. Qed.

(* ================================================================== *)
(** * Output names of the entries *)
(* ================================================================== *)

Lemma entryFileName_spec (k : string) :
  ViteConfig.entryFileName k = Some (Rollup.sanitizeFileName k ++ ".js").
Proof. reflexivity. Qed.


(* ================================================================== *)
(** * More about paths: extensions, logical names, absolute paths *)
(* ================================================================== *)

Section PathMore.

Import Path PathShape.

Lemma split_nonempty (p : string) : split p <> [].
Proof.
  destruct p as [|c p]; simpl; [discriminate|].
  destruct (is_slash c); [discriminate|].
  destruct (split p); discriminate.
Qed.

Lemma join_cons (seg : string) (rest : list string) :
  rest <> [] -> join (seg :: rest) = seg ++ "/" ++ join rest.
Proof. destruct rest; [congruence | reflexivity]. Qed.

Lemma join_split (p : string) : join (split p) = p.
Proof.
  induction p as [|c p IH]; [reflexivity|].
  simpl split. destruct (is_slash c) eqn:Hc.
  - rewrite join_cons by apply split_nonempty. rewrite IH. simpl.
    unfold is_slash in Hc. apply Ascii.eqb_eq in Hc. now subst.
  - destruct (split p) as [|seg rest] eqn:Hs; [now destruct (split_nonempty p)|].
    rewrite <- IH. destruct rest; reflexivity.
Qed.

Lemma split_app_slash (d t : string) :
  split (d ++ String "/" t) = (split d ++ split t)%list.
Proof.
  induction d as [|c d IH]; [reflexivity|].
  simpl. rewrite IH. destruct (is_slash c); [reflexivity|].
  destruct (split d) as [|seg rest] eqn:Hs; [now destruct (split_nonempty d)|].
  reflexivity.
Qed.

Lemma join_app (a b : list string) :
  a <> [] -> b <> [] -> join (a ++ b)%list = join a ++ "/" ++ join b.
Proof.
  intros Ha Hb. induction a as [|x a IH]; [congruence|].
  destruct a as [|y a].
  - simpl app. now rewrite join_cons.
  - change ((x :: y :: a) ++ b)%list with (x :: ((y :: a) ++ b))%list.
    rewrite join_cons by discriminate. rewrite IH by discriminate.
    rewrite (join_cons x (y :: a)) by discriminate.
    now rewrite !append_assoc.
Qed.

Lemma normalize_app (st a b : list string) :
  normalize st (a ++ b)%list = normalize (rev (normalize st a)) b.
Proof.
  revert st. induction a as [|seg a IH]; intros st; simpl.
  - now rewrite rev_involutive.
  - destruct (String.eqb seg "" || String.eqb seg "."); [apply IH|].
    destruct (String.eqb seg ".."); apply IH.
Qed.

Lemma normalize_plain (st segs : list string) :
  Forall (fun seg => plain seg = true) segs ->
  normalize st segs = (rev st ++ segs)%list.
Proof.
  intros H. revert st. induction H as [|seg segs Hseg _ IH]; intros st; simpl.
  - now rewrite app_nil_r.
  - unfold plain in Hseg.
    apply andb_true_iff in Hseg. destruct Hseg as [Hseg H2].
    apply andb_true_iff in Hseg. destruct Hseg as [H0 H1].
    apply negb_true_iff in H1, H2. rewrite H1, H2.
    assert (He : String.eqb seg "" = false) by now destruct seg.
    rewrite He. simpl. rewrite IH. simpl. now rewrite <- app_assoc.
Qed.

Lemma drop_common_prefix (a b c : list string) :
  drop_common (a ++ b) (a ++ c) = drop_common b c.
Proof.
  induction a as [|x a IH]; [reflexivity|].
  simpl. now rewrite String.eqb_refl.
Qed.

Lemma plain_not_absolute (f : string) :
  Forall (fun seg => plain seg = true) (split f) -> is_absolute f = false.
Proof.
  destruct f as [|c f]; [reflexivity|]. simpl.
  destruct (is_slash c); [|reflexivity].
  intros H. inversion H; subst. discriminate.
Qed.

(** Below "lib", the path relative to "lib" is what follows "lib/". *)
Lemma relative_lib (root q : string) :
  Forall (fun seg => plain seg = true) (split q) ->
  relative root "lib" ("lib/" ++ q) = q.
Proof.
  intros Hq. unfold relative, resolve.
  change (is_absolute "lib") with false.
  change (is_absolute ("lib/" ++ q)) with false.
  change ("lib/" ++ q) with ("lib" ++ String "/" q).
  rewrite split_app_slash.
  change (split "lib") with ["lib"].
  rewrite (normalize_app [] (split root) ["lib"]).
  rewrite (normalize_app [] (split root) (["lib"] ++ split q)%list).
  set (N := normalize [] (split root)).
  rewrite (normalize_plain (rev N) ["lib"]) by (repeat constructor).
  rewrite (normalize_plain (rev N) (["lib"] ++ split q)%list)
    by (constructor; [reflexivity | exact Hq]).
  rewrite rev_involutive, drop_common_prefix.
  change (drop_common ["lib"] (["lib"] ++ split q)%list) with ([] : list string, split q).
  apply join_split.
Qed.

Lemma strip_suffix (a e : string) :
  Rollup.slice0 (a ++ e) (String.length (a ++ e) - String.length e) = a.
Proof.
  rewrite length_append.
  replace (String.length a + String.length e - String.length e)
    with (String.length a) by lia.
  apply substring_prefix.
Qed.

Lemma last_dot_suffix_shape (b : string) :
  match last_dot_suffix b with
  | Some e => exists e', e = String "." e' /\ noDot e' = true
  | None => noDot b = true
  end.
Proof.
  induction b as [|c b IH]; simpl; [reflexivity|].
  destruct (last_dot_suffix b) as [e|]; [exact IH|].
  destruct (is_dot c) eqn:Hc.
  - exists b. split; [|exact IH].
    unfold is_dot in Hc. apply Ascii.eqb_eq in Hc. now subst.
  - simpl. now rewrite IH.
Qed.

Lemma basename_app_slash (d t : string) :
  noSlash t = true -> nonempty t = true -> basename (d ++ String "/" t) = t.
Proof.
  intros Ht Hne. unfold basename.
  rewrite split_app_slash, (split_of_noSlash t Ht), filter_app.
  simpl. rewrite Hne. apply last_last.
Qed.

End PathMore.

(** X7: the extension [path.extname] gives is the tail of the file name
    and is either empty or one "." followed by characters that are
    neither "." nor "/": of lib/vite-env.d.ts only ".ts" is the
    extension. *)
Theorem extname_shape (p : string) :
  (exists pre, Path.basename p = pre ++ Path.extname p)
  /\ (Path.extname p = ""
      \/ exists e, Path.extname p = String "." e
                   /\ PathShape.noDot e = true /\ Path.noSlash e = true).
Proof.
  split; [apply extname_is_suffix|].
  assert (Hns : Path.noSlash (Path.extname p) = true).
  { destruct (extname_is_suffix p) as [pre Hpre].
    pose proof (basename_noSlash p) as Hb. rewrite Hpre, noSlash_app in Hb.
    now apply andb_true_iff in Hb. }
  unfold Path.extname in *.
  destruct (String.eqb (Path.basename p) ".."); [now left|].
  destruct (Path.basename p) as [|c b']; [now left|].
  pose proof (last_dot_suffix_shape b') as Hs.
  destruct (Path.last_dot_suffix b') as [e|]; [|now left].
  destruct Hs as [e' [-> He']]. right. exists e'.
  split; [reflexivity | split; [exact He'|]].
  simpl in Hns. exact Hns.
Qed.

(** X8: for a path that does not end in "/", cutting the extension off
    as the configuration does ([file.slice(0, file.length -
    extname(file).length)]) removes exactly the extension: putting it
    back gives the path again. *)
Theorem strip_extension_round_trip (file : string) :
  (forall d, file <> d ++ "/") ->
  Rollup.slice0 file (String.length file - String.length (Path.extname file))
  ++ Path.extname file
  = file.
Proof.
  intros Hend.
  assert (Hsuf : exists a, file = a ++ Path.extname file).
  { destruct (extname_is_suffix file) as [pre Hpre].
    destruct (last_slash_split file) as [Hns | [d [t [Hfile Ht]]]].
    - exists pre. now rewrite (basename_of_noSlash file Hns) in Hpre.
    - destruct t as [|c t].
      + exfalso. now apply (Hend d).
      + rewrite Hfile in Hpre at 1.
        rewrite (basename_app_slash d (String c t) Ht eq_refl) in Hpre.
        exists (d ++ String "/" pre).
        rewrite append_assoc. simpl. rewrite <- Hpre. exact Hfile. }
  destruct Hsuf as [a Ha]. rewrite Ha at 1 2.
  rewrite strip_suffix. now rewrite <- Ha.
Qed.

Lemma strip_extension_round_trip_witness :
  (forall d, "lib/components/Button/index.tsx" <> d ++ "/")
  /\ Rollup.slice0 "lib/components/Button/index.tsx"
       (String.length "lib/components/Button/index.tsx"
        - String.length (Path.extname "lib/components/Button/index.tsx"))
     ++ Path.extname "lib/components/Button/index.tsx"
     = "lib/components/Button/index.tsx".
Proof.
  assert (H : forall d, "lib/components/Button/index.tsx" <> d ++ "/").
  { intros d Hd.
    change "lib/components/Button/index.tsx"
      with ("lib/components/Button/index.ts" ++ "x") in Hd.
    apply append_inj_len in Hd; [discriminate | reflexivity]. }
  split; [exact H|].
  exact (strip_extension_round_trip "lib/components/Button/index.tsx" H).
Defined.

(** X9: the logical name of a file lib/<q><ext>, where <ext> is its
    extension and <q> a normal path, is <q>, whatever the directory the
    build runs in: the names of the entries mirror the directories below
    lib/. *)
Theorem logicalName_mirrors_source_path (root q ext : string) :
  Forall (fun seg => PathShape.plain seg = true) (Path.split q) ->
  Path.extname ("lib/" ++ q ++ ext) = ext ->
  ViteConfig.logicalName root ("lib/" ++ q ++ ext) = q.
Proof.
  intros Hq Hext.
  unfold ViteConfig.logicalName. rewrite Hext.
  change ("lib/" ++ q ++ ext) with (("lib/" ++ q) ++ ext).
  rewrite strip_suffix. now apply relative_lib.
Qed.

Lemma logicalName_mirrors_source_path_witness :
  Forall (fun seg => PathShape.plain seg = true)
    (Path.split "components/Button/index")
  /\ Path.extname ("lib/" ++ "components/Button/index" ++ ".tsx") = ".tsx"
  /\ ViteConfig.logicalName "/home/dev/project"
       ("lib/" ++ "components/Button/index" ++ ".tsx")
     = "components/Button/index".
Proof.
  assert (H : Forall (fun seg => PathShape.plain seg = true)
                (Path.split "components/Button/index"))
    by (repeat constructor).
  split; [exact H | split; [reflexivity|]].
  exact (logicalName_mirrors_source_path "/home/dev/project"
           "components/Button/index" ".tsx" H eq_refl).
Defined.

(* ================================================================== *)
(** * Names of the assets *)
(* ================================================================== *)

Section AssetFacts.

Import Rollup.

Lemma replaceInvalid_app (a b : string) :
  replaceInvalid (a ++ b) = replaceInvalid a ++ replaceInvalid b.
Proof. induction a as [|c a IH]; simpl; [reflexivity | now rewrite IH]. Qed.

Lemma invalid_not_slash (c : ascii) :
  invalidChar c = true -> Path.is_slash c = false.
Proof.
  intros H. destruct (Path.is_slash c) eqn:Hc; [|reflexivity].
  unfold Path.is_slash in Hc. apply Ascii.eqb_eq in Hc. subst c. discriminate H.
Qed.

Lemma noSlash_replaceInvalid (s : string) :
  Path.noSlash (replaceInvalid s) = Path.noSlash s.
Proof.
  induction s as [|c s IH]; simpl; [reflexivity|].
  rewrite IH. destruct (invalidChar c) eqn:Hc; [|reflexivity].
  now rewrite (invalid_not_slash c Hc).
Qed.

Lemma noSlash_sanitize (s : string) :
  Path.noSlash (sanitizeFileName s) = Path.noSlash s.
Proof.
  unfold sanitizeFileName. destruct s as [|c [|d rest]];
    try apply noSlash_replaceInvalid.
  destruct (isAlpha c && Ascii.eqb d ":"); [|apply noSlash_replaceInvalid].
  simpl. now rewrite noSlash_replaceInvalid.
Qed.

Lemma sanitize_nonempty (s : string) : s <> "" -> sanitizeFileName s <> "".
Proof.
  unfold sanitizeFileName. destruct s as [|c [|d rest]]; [congruence | discriminate |].
  intros _. destruct (isAlpha c && Ascii.eqb d ":"); discriminate.
Qed.

Lemma sanitize_css (x : string) :
  sanitizeFileName (x ++ ".css") = sanitizeFileName x ++ ".css".
Proof.
  unfold sanitizeFileName. destruct x as [|c [|d rest]].
  - reflexivity.
  - simpl. destruct (isAlpha c); reflexivity.
  - change ((String c (String d rest)) ++ ".css")
      with (String c (String d (rest ++ ".css"))).
    cbv beta iota.
    destruct (isAlpha c && Ascii.eqb d ":").
    + rewrite replaceInvalid_app. reflexivity.
    + change (String c (String d (rest ++ ".css")))
        with ((String c (String d rest)) ++ ".css").
      rewrite replaceInvalid_app. reflexivity.
Qed.

Lemma last_dot_suffix_css (y : string) :
  Path.last_dot_suffix (y ++ ".css") = Some ".css".
Proof.
  induction y as [|c y IH]; [reflexivity|].
  simpl. now rewrite IH.
Qed.

Lemma extname_css (x : string) :
  x <> "" -> Path.noSlash x = true -> Path.extname (x ++ ".css") = ".css".
Proof.
  intros Hne Hns. unfold Path.extname.
  rewrite (basename_of_noSlash (x ++ ".css"))
    by (rewrite noSlash_app, Hns; reflexivity).
  destruct x as [|c y]; [congruence|].
  change ((String c y) ++ ".css") with (String c (y ++ ".css")).
  assert (Hdd : String.eqb (String c (y ++ ".css")) ".." = false).
  { apply String.eqb_neq. intros H. apply (f_equal String.length) in H.
    simpl in H. rewrite length_append in H. simpl in H. lia. }
  rewrite Hdd. now rewrite last_dot_suffix_css.
Qed.

Lemma extname_below_assets (n : string) :
  n <> "" -> Path.noSlash n = true ->
  Path.extname ("assets/" ++ n) = Path.extname n.
Proof.
  intros Hne Hns. unfold Path.extname.
  assert (Hb : Path.basename ("assets/" ++ n) = n).
  { apply (basename_app_slash "assets" n Hns). now destruct n. }
  now rewrite Hb, (basename_of_noSlash n Hns).
Qed.

Lemma extname_shorter (p : string) :
  Path.basename p <> "" ->
  String.length (Path.extname p) < String.length (Path.basename p).
Proof.
  intros Hne. unfold Path.extname.
  destruct (String.eqb (Path.basename p) "..").
  - destruct (Path.basename p); [congruence | simpl; lia].
  - destruct (Path.basename p) as [|c b']; [congruence|].
    destruct (Path.last_dot_suffix b') as [e|] eqn:He; [|simpl; lia].
    destruct (last_dot_suffix_is_suffix b' e He) as [pre ->].
    simpl. rewrite length_append. lia.
Qed.

(** The name of a file without its extension: what is left is not
    empty and holds no "/". *)
Lemma stem_shape (p : string) :
  Path.basename p <> "" ->
  let stem := slice0 (Path.basename p)
                (String.length (Path.basename p) - String.length (Path.extname p)) in
  stem <> "" /\ Path.noSlash stem = true.
Proof.
  intros Hne. destruct (extname_is_suffix p) as [pre Hpre].
  pose proof (extname_shorter p Hne) as Hlen.
  pose proof (basename_noSlash p) as Hns.
  cbv zeta.
  assert (Hs : slice0 (Path.basename p)
                 (String.length (Path.basename p) - String.length (Path.extname p))
               = pre).
  { generalize (Path.extname p), (Path.basename p), Hpre.
    intros e b ->. apply strip_suffix. }
  rewrite Hs. split.
  - intros ->. rewrite Hpre in Hlen. simpl in Hlen. lia.
  - rewrite Hpre, noSlash_app in Hns. now apply andb_true_iff in Hns.
Qed.

Lemma render_asset_pattern (r : string -> option string) :
  renderNamePattern ViteConfig.assetFileNames r
  = match r "name", r "extname" with
    | Some a, Some b => Some ("assets/" ++ a ++ b)
    | _, _ => None
    end.
Proof.
  unfold renderNamePattern, ViteConfig.assetFileNames. simpl.
  destruct (r "name") as [a|]; simpl; [|reflexivity].
  destruct (r "extname") as [b|]; simpl; [|reflexivity].
  now rewrite append_nil_r.
Qed.

(** *** Numbers *)

Lemma string_of_uint_plain (d : Decimal.uint) :
  toLowerCase (NilEmpty.string_of_uint d) = NilEmpty.string_of_uint d
  /\ Path.noSlash (NilEmpty.string_of_uint d) = true.
Proof.
  induction d as [|d [IH1 IH2]|d [IH1 IH2]|d [IH1 IH2]|d [IH1 IH2]|d [IH1 IH2]
                  |d [IH1 IH2]|d [IH1 IH2]|d [IH1 IH2]|d [IH1 IH2]|d [IH1 IH2]];
    simpl; [split; reflexivity | | | | | | | | | |];
    rewrite IH1, IH2; split; reflexivity.
Qed.

Lemma toLowerCase_decimal (k : nat) : toLowerCase (decimal k) = decimal k.
Proof. apply string_of_uint_plain. Qed.

Lemma noSlash_decimal (k : nat) : Path.noSlash (decimal k) = true.
Proof. apply string_of_uint_plain. Qed.

Lemma decimal_inj (a b : nat) : decimal a = decimal b -> a = b.
Proof.
  unfold decimal. intros H. apply (f_equal NilEmpty.uint_of_string) in H.
  rewrite !NilEmpty.usu in H. inversion H as [H'].
  now apply DecimalNat.Unsigned.to_uint_inj.
Qed.

Lemma toLowerCase_app (a b : string) :
  toLowerCase (a ++ b) = toLowerCase a ++ toLowerCase b.
Proof. induction a as [|c a IH]; simpl; [reflexivity | now rewrite IH]. Qed.

Lemma append_inv_head (a x y : string) : a ++ x = a ++ y -> x = y.
Proof.
  induction a as [|c a IH]; simpl; intros H; [exact H|].
  inversion H. now apply IH.
Qed.

Lemma candidate_inj (stem ext : string) (a b : nat) :
  toLowerCase (stem ++ decimal a ++ ext) = toLowerCase (stem ++ decimal b ++ ext) ->
  a = b.
Proof.
  rewrite !toLowerCase_app, !toLowerCase_decimal. intros H.
  apply append_inv_head in H. apply append_inj_l in H. now apply decimal_inj.
Qed.

Lemma taken_iff (reserved : list string) (n : string) :
  taken reserved n = true <-> In (toLowerCase n) (map toLowerCase reserved).
Proof.
  unfold taken. rewrite existsb_exists. split.
  - intros [x [Hx Heq]]. apply String.eqb_eq in Heq. now subst.
  - intros H. exists (toLowerCase n). split; [exact H | apply String.eqb_refl].
Qed.

(** *** [makeUnique] *)

Lemma firstFree_shape (reserved : list string) (stem ext : string) (k fuel : nat) :
  exists j, k <= j /\ firstFree reserved stem ext k fuel = stem ++ decimal j ++ ext.
Proof.
  revert k. induction fuel as [|fuel IH]; intros k; simpl.
  - exists k. split; [lia | reflexivity].
  - destruct (taken reserved (stem ++ decimal k ++ ext)).
    + destruct (IH (S k)) as [j [Hj Heq]]. exists j. split; [lia | exact Heq].
    + exists k. split; [lia | reflexivity].
Qed.

Lemma firstFree_taken_all (reserved : list string) (stem ext : string)
  (k fuel : nat) :
  taken reserved (firstFree reserved stem ext k fuel) = true ->
  forall j, k <= j <= k + fuel -> taken reserved (stem ++ decimal j ++ ext) = true.
Proof.
  revert k. induction fuel as [|fuel IH]; intros k; simpl; intros H j Hj.
  - replace j with k by lia. exact H.
  - destruct (taken reserved (stem ++ decimal k ++ ext)) eqn:Hk.
    + destruct (Nat.eq_dec j k) as [->|Hne]; [exact Hk|].
      apply (IH (S k) H). lia.
    + congruence.
Qed.

Lemma firstFree_free (reserved : list string) (stem ext : string) (k fuel : nat) :
  List.length reserved <= fuel ->
  taken reserved (firstFree reserved stem ext k fuel) = false.
Proof.
  intros Hfuel.
  destruct (taken reserved (firstFree reserved stem ext k fuel)) eqn:H;
    [|reflexivity].
  exfalso. pose proof (firstFree_taken_all reserved stem ext k fuel H) as Hall.
  set (cand := fun j => toLowerCase (stem ++ decimal j ++ ext)).
  assert (Hnd : NoDup (map cand (seq k (S fuel)))).
  { apply NoDup_map_NoDup_ForallPairs; [|apply seq_NoDup].
    intros a b _ _ Hab. now apply (candidate_inj stem ext). }
  assert (Hincl : incl (map cand (seq k (S fuel))) (map toLowerCase reserved)).
  { intros x Hx. apply in_map_iff in Hx. destruct Hx as [j [<- Hj]].
    apply in_seq in Hj. apply taken_iff. apply Hall. lia. }
  pose proof (NoDup_incl_length Hnd Hincl) as Hlen.
  rewrite !length_map, length_seq in Hlen. lia.
Qed.

Lemma makeUnique_free (reserved : list string) (name : string) :
  taken reserved (makeUnique reserved name) = false.
Proof.
  unfold makeUnique. destruct (taken reserved name) eqn:H; [|exact H].
  apply firstFree_free. lia.
Qed.

Lemma makeUnique_shape (reserved : list string) (name : string) :
  makeUnique reserved name = name
  \/ exists j, 2 <= j
       /\ makeUnique reserved name
          = slice0 name (String.length name - String.length (Path.extname name))
            ++ decimal j ++ Path.extname name.
Proof.
  unfold makeUnique. destruct (taken reserved name); [|now left].
  right. apply firstFree_shape.
Qed.

(** *** The file of a style asset *)

(** The style asset of a chunk is written below assets/ under the
    sanitized name of the chunk's entry module, without its extension
    and with ".css", a number in between when that file is taken. *)
Lemma css_asset_file (reserved : list string) (facade p : string) :
  Path.basename facade <> "" ->
  ViteConfig.assetFileName reserved (ViteCss.cssAssetName facade) = Some p ->
  exists number,
    p = "assets/"
        ++ sanitizeFileName
             (slice0 (Path.basename facade)
                (String.length (Path.basename facade)
                 - String.length (Path.extname facade)))
        ++ number ++ ".css"
    /\ (number = "" \/ exists j, 2 <= j /\ number = decimal j)
    /\ taken reserved p = false.
Proof.
  intros Hne Hgen. unfold ViteConfig.assetFileName, ViteCss.cssAssetName in Hgen.
  destruct (stem_shape facade Hne) as [Hst Hns].
  set (st := slice0 (Path.basename facade)
               (String.length (Path.basename facade)
                - String.length (Path.extname facade))) in *.
  set (s' := sanitizeFileName st).
  assert (Hs' : s' <> "") by now apply sanitize_nonempty.
  assert (Hns' : Path.noSlash s' = true) by (unfold s'; now rewrite noSlash_sanitize).
  unfold generateAssetFileName in Hgen.
  assert (Hname : match st ++ ".css" with EmptyString => "asset" | _ => st ++ ".css" end
                  = st ++ ".css") by (destruct st; [congruence | reflexivity]).
  rewrite Hname, sanitize_css in Hgen. fold s' in Hgen.
  rewrite render_asset_pattern in Hgen. unfold checked, assetReplacements in Hgen.
  simpl in Hgen.
  rewrite (extname_css s' Hs' Hns'), strip_suffix in Hgen. simpl in Hgen.
  destruct (isPathFragment s') eqn:Hfrag; [discriminate|].
  assert (Hp : p = makeUnique reserved ("assets/" ++ s' ++ ".css"))
    by (injection Hgen as <-; reflexivity).
  clear Hgen. subst p.
  assert (Hext : Path.extname ("assets/" ++ s' ++ ".css") = ".css").
  { rewrite extname_below_assets.
    - now apply extname_css.
    - destruct s'; [congruence | discriminate].
    - rewrite noSlash_app, Hns'. reflexivity. }
  destruct (makeUnique_shape reserved ("assets/" ++ s' ++ ".css")) as [Heq | [j [Hj Heq]]].
  - exists "". split; [|split].
    + rewrite Heq. reflexivity.
    + now left.
    + apply makeUnique_free.
  - exists (decimal j). split; [|split].
    + rewrite Heq, Hext.
      change ("assets/" ++ s' ++ ".css") with (("assets/" ++ s') ++ ".css").
      rewrite strip_suffix. now rewrite !append_assoc.
    + right. now exists j.
    + apply makeUnique_free.
Qed.

Lemma css_asset_matched (reserved : list string) (facade p : string) :
  Path.basename facade <> "" ->
  ViteConfig.assetFileName reserved (ViteCss.cssAssetName facade) = Some p ->
  Path.extname p = ".css"
  /\ Path.noSlash (slice1 (slice1 (slice1 (slice1 (slice1 (slice1 (slice1 p)))))))
     = true
  /\ PackageJson.hasSideEffects p = true.
Proof.
  intros Hne Hp. destruct (stem_shape facade Hne) as [Hst Hns].
  destruct (css_asset_file reserved facade p Hne Hp) as [number [-> [Hnum _]]].
  set (s' := sanitizeFileName _) in *.
  assert (Hs' : s' <> "") by now apply sanitize_nonempty.
  assert (Hns' : Path.noSlash s' = true) by (unfold s'; now rewrite noSlash_sanitize).
  assert (Hnn : Path.noSlash number = true).
  { destruct Hnum as [->|[j [_ ->]]]; [reflexivity | apply noSlash_decimal]. }
  split; [|split].
  - rewrite extname_below_assets.
    + rewrite <- append_assoc. apply extname_css.
      * destruct s'; [congruence | discriminate].
      * now rewrite noSlash_app, Hns', Hnn.
    + destruct s'; [congruence | discriminate].
    + now rewrite !noSlash_app, Hns', Hnn.
  - simpl. now rewrite !noSlash_app, Hns', Hnn.
  - apply hasSideEffects_iff. exists ("assets/" ++ s' ++ number).
    now rewrite !append_assoc.
Qed.

Lemma fileOfSource_In (source f : string) (known : list (string * string)) :
  fileOfSource source known = Some f -> In (source, f) known.
Proof.
  induction known as [|[s g] known IH]; simpl; [discriminate|].
  destruct (String.eqb_spec source s) as [->|Hne].
  - intros H. inversion H. now left.
  - intros H. right. now apply IH.
Qed.

Lemma length_le_joined (p : string) (l : list string) :
  In p l -> String.length p <= String.length (fold_right String.append "" l).
Proof.
  induction l as [|x l IH]; simpl; [tauto|].
  rewrite length_append. intros [->|H]; [lia|]. specialize (IH H). lia.
Qed.

(** The side-effect list matches a path that is none of the given ones. *)
Lemma matched_path_outside (paths : list string) :
  exists q, PackageJson.hasSideEffects q = true /\ ~ In q paths.
Proof.
  exists (fold_right String.append "" paths ++ ".css"). split.
  - apply hasSideEffects_iff. now eexists.
  - intros Hin. apply length_le_joined in Hin.
    rewrite length_append in Hin. simpl in Hin. lia.
Qed.

End AssetFacts.

(* ================================================================== *)
(** * The style assets of a build *)
(* ================================================================== *)

Section StyleAssetFacts.

Import Rollup.

Lemma taken_In (p : string) (reserved : list string) :
  In p reserved -> taken reserved p = true.
Proof. intros H. apply taken_iff. now apply in_map. Qed.

Lemma css_asset_named_after_chunk (reserved : list string) (facade p : string) :
  Path.basename facade <> "" ->
  ViteConfig.assetFileName reserved (ViteCss.cssAssetName facade) = Some p ->
  Spec.namedAfterChunk facade p /\ ~ In p reserved.
Proof.
  intros Hne Hp. destruct (stem_shape facade Hne) as [Hst Hns].
  destruct (css_asset_file reserved facade p Hne Hp) as [number [-> [Hnum Hfree]]].
  split; [|intros Hin; now rewrite (taken_In _ _ Hin) in Hfree].
  eexists. exists number. split; [reflexivity|]. split; [reflexivity|].
  split; [|exact Hnum].
  rewrite !noSlash_app, noSlash_sanitize, Hns.
  destruct Hnum as [->|[j [_ ->]]]; [reflexivity|].
  now rewrite noSlash_decimal.
Qed.

(** What holds of every name the namer gives holds of every style asset
    of a build, when it holds of the assets the emitter already knows. *)
Lemma emitted_style_assets_all (P : string -> Prop) :
  (forall reserved facade p,
     Path.basename facade <> "" ->
     ViteConfig.assetFileName reserved (ViteCss.cssAssetName facade) = Some p ->
     P p) ->
  forall (chunks : list ViteCss.CssChunk) (e : Emitter) (paths : list string),
  (forall c, In c chunks -> Path.basename (ViteCss.facade c) <> "") ->
  (forall s f, In (s, f) (bySource e) -> P f) ->
  ViteCss.emitStyleAssets e chunks = Some paths ->
  forall p, In p paths -> P p.
Proof.
  intros Hnamer chunks.
  induction chunks as [|c chunks IH]; intros e paths Hfac Hknown; simpl.
  - intros H. inversion H. intros p [].
  - unfold emitAsset.
    destruct (isPathFragment (ViteCss.cssAssetName (ViteCss.facade c)));
      [discriminate|].
    destruct (fileOfSource (ViteCss.css c) (bySource e)) as [f|] eqn:Hsrc.
    + destruct (ViteCss.emitStyleAssets e chunks) as [ps|] eqn:Hrest;
        [|discriminate].
      simpl. intros H. inversion H; subst. intros p [<-|Hp].
      * apply (Hknown (ViteCss.css c)). now apply fileOfSource_In.
      * apply (IH e ps); auto. intros c' Hc'. apply Hfac. now right.
    + destruct (generateAssetFileName ViteConfig.assetFileNames (bundle e)
                  (ViteCss.cssAssetName (ViteCss.facade c))) as [f|] eqn:Hgen;
        [|discriminate].
      assert (Hf : P f).
      { apply (Hnamer (bundle e) (ViteCss.facade c) f).
        - apply Hfac. now left.
        - exact Hgen. }
      match goal with
      | |- context [ViteCss.emitStyleAssets ?e' chunks] =>
          destruct (ViteCss.emitStyleAssets e' chunks) as [ps|] eqn:Hrest;
            [|discriminate]
      end.
      simpl. intros H. inversion H; subst. intros p [<-|Hp]; [exact Hf|].
      eapply IH; [| |exact Hrest|exact Hp].
      * intros c' Hc'. apply Hfac. now right.
      * simpl. intros s g [Heq|Hin].
        -- inversion Heq; subst. exact Hf.
        -- now apply (Hknown s).
Qed.

End StyleAssetFacts.




(** C10.  Every style asset a build emits keeps the extension .css and
    is matched by the side-effect list of package.json, when the assets
    the emitter already knows are: the namer writes the asset of a chunk
    as a file that ends in ".css", whatever the names in the bundle. *)
Theorem style_asset_matches_side_effects
  (e : Rollup.Emitter) (chunks : list ViteCss.CssChunk) (paths : list string) :
  (forall c, In c chunks -> Path.basename (ViteCss.facade c) <> "") ->
  (forall s f, In (s, f) (Rollup.bySource e) ->
     Path.extname f = ".css" /\ PackageJson.hasSideEffects f = true) ->
  ViteCss.emitStyleAssets e chunks = Some paths ->
  forall p, In p paths ->
    Path.extname p = ".css" /\ PackageJson.hasSideEffects p = true.
Proof.
  apply (emitted_style_assets_all
           (fun p => Path.extname p = ".css" /\ PackageJson.hasSideEffects p = true)).
  intros reserved facade p Hne Hp.
  destruct (css_asset_matched reserved facade p Hne Hp) as [He [_ Hm]].
  now split.
Qed.

Lemma style_asset_matches_side_effects_witness :
  (forall c, In c [Build.buttonCss; Build.textCss] ->
     Path.basename (ViteCss.facade c) <> "")
  /\ (forall s f, In (s, f) (Rollup.bySource Build.libraryEmitter) ->
        Path.extname f = ".css" /\ PackageJson.hasSideEffects f = true)
  /\ Path.extname "assets/index2.css" = ".css"
  /\ PackageJson.hasSideEffects "assets/index2.css" = true.
Proof.
  assert (Hfac : forall c, In c [Build.buttonCss; Build.textCss] ->
            Path.basename (ViteCss.facade c) <> "").
  { intros c [<-|[<-|[]]] H; vm_compute in H; discriminate H. }
  assert (Hknown : forall s f, In (s, f) (Rollup.bySource Build.libraryEmitter) ->
            Path.extname f = ".css" /\ PackageJson.hasSideEffects f = true).
  { intros s f []. }
  split; [exact Hfac | split; [exact Hknown |]].
  apply (style_asset_matches_side_effects Build.libraryEmitter
           [Build.buttonCss; Build.textCss]
           ["assets/index.css"; "assets/index2.css"] Hfac Hknown eq_refl).
  right. now left.
Defined.

(** C3, as stated, fails: the side-effect list matches paths that are no
    style asset of the build. *)
Lemma side_effects_not_exact :
  exists paths,
    ViteCss.emitStyleAssets Build.libraryEmitter [Build.buttonCss; Build.textCss]
    = Some paths
    /\ ~ Spec.sideEffectsExact paths.
Proof.
  exists ["assets/index.css"; "assets/index2.css"]. split; [reflexivity|].
  intros H. destruct (proj1 (H "assets/other.css") eq_refl) as [E|[E|[]]];
    discriminate E.
Qed.

(** C3 (amended).  The side-effect list is the fixed pattern **/*.css;
    it matches every style asset of a build, when it matches the assets
    the emitter already knows, and it always matches a path that is no
    style asset of the build: the list covers the assets and is never
    exactly their set. *)
Theorem side_effects_cover_style_assets
  (e : Rollup.Emitter) (chunks : list ViteCss.CssChunk) (paths : list string) :
  (forall c, In c chunks -> Path.basename (ViteCss.facade c) <> "") ->
  (forall s f, In (s, f) (Rollup.bySource e) -> PackageJson.hasSideEffects f = true) ->
  ViteCss.emitStyleAssets e chunks = Some paths ->
  PackageJson.sideEffects = ["**/*.css"]
  /\ (forall p, In p paths -> PackageJson.hasSideEffects p = true)
  /\ (exists q, PackageJson.hasSideEffects q = true /\ ~ In q paths)
  /\ ~ Spec.sideEffectsExact paths.
Proof.
  intros Hfac Hknown He. split; [reflexivity|]. split; [|split].
  - apply (emitted_style_assets_all
             (fun p => PackageJson.hasSideEffects p = true)
             (fun reserved facade p Hne Hp =>
                proj2 (proj2 (css_asset_matched reserved facade p Hne Hp)))
             chunks e paths Hfac Hknown He).
  - apply matched_path_outside.
  - intros H. destruct (matched_path_outside paths) as [q [Hq Hout]].
    apply Hout. now apply H.
Qed.

Lemma side_effects_cover_style_assets_witness :
  (forall c, In c [Build.buttonCss; Build.textCss] ->
     Path.basename (ViteCss.facade c) <> "")
  /\ (forall s f, In (s, f) (Rollup.bySource Build.libraryEmitter) ->
        PackageJson.hasSideEffects f = true)
  /\ (forall p, In p ["assets/index.css"; "assets/index2.css"] ->
        PackageJson.hasSideEffects p = true)
  /\ ~ Spec.sideEffectsExact ["assets/index.css"; "assets/index2.css"].
Proof.
  assert (Hfac : forall c, In c [Build.buttonCss; Build.textCss] ->
            Path.basename (ViteCss.facade c) <> "").
  { intros c [<-|[<-|[]]] H; vm_compute in H; discriminate H. }
  assert (Hknown : forall s f, In (s, f) (Rollup.bySource Build.libraryEmitter) ->
            PackageJson.hasSideEffects f = true).
  { intros s f []. }
  split; [exact Hfac | split; [exact Hknown |]].
  pose proof (side_effects_cover_style_assets Build.libraryEmitter
                [Build.buttonCss; Build.textCss]
                ["assets/index.css"; "assets/index2.css"] Hfac Hknown eq_refl)
    as [_ [Hall [_ Hne]]].
  split; [exact Hall | exact Hne].
Defined.

(* ================================================================== *)
(** * What the output of an entry loads *)
(* ================================================================== *)

Section OutputGraph.

Import Build.

Variable inp : JSObject.object.
Variable tree : list SourceModule.

Lemma imports_pulls (a B : string) :
  clos_trans string (importsModule tree) a B ->
  isEntry inp B = true ->
  pulls inp tree a B
  \/ exists E, pulls inp tree a E /\ outputReaches inp tree E B.
Proof.
  intros Ht HB. apply clos_trans_t1n in Ht.
  induction Ht as [a B Hi | a c B Hi Ht IH].
  - left. now apply pulls_entry.
  - specialize (IH HB). destruct (isEntry inp c) eqn:Hc.
    + right. exists c. split; [now apply pulls_entry|].
      destruct IH as [Hp | [E [Hp Hr]]].
      * apply t_step. now split.
      * apply t_trans with E; [|exact Hr]. apply t_step. now split.
    + destruct IH as [Hp | [E [Hp Hr]]].
      * left. now apply pulls_through with c.
      * right. exists E. split; [|exact Hr]. now apply pulls_through with c.
Qed.

Lemma imports_outputReaches (A B : string) :
  isEntry inp A = true -> isEntry inp B = true ->
  clos_trans string (importsModule tree) A B ->
  outputReaches inp tree A B.
Proof.
  intros HA HB Ht. destruct (imports_pulls A B Ht HB) as [Hp | [E [Hp Hr]]].
  - apply t_step. now split.
  - apply t_trans with E; [|exact Hr]. apply t_step. now split.
Qed.

End OutputGraph.




(* ================================================================== *)
(** * The build script *)
(* ================================================================== *)

Section BuildScript.

(** The file system, and the programs the script names.  The compiler
    options that tsconfig.json sets are not part of the sources at hand;
    what the build relies on is stated as hypotheses: tsc exits with a
    non-zero status on a tree with a type or syntax error, and it only
    checks (noEmit), leaving the file system as it found it. *)
Variable FS : Type.
Variable exec : string -> Shell.program FS.
Variable hasError : FS -> Prop.

Hypothesis tsc_rejects :
  forall fs, hasError fs -> fst (exec "tsc --p ./tsconfig-build.json" fs) <> 0%Z.
Hypothesis tsc_noEmit :
  forall fs, snd (exec "tsc --p ./tsconfig-build.json" fs) = fs.

Lemma build_is_tsc_then_vite (fs : FS) :
  Shell.run exec PackageJson.build fs
  = let '(status, fs') := exec "tsc --p ./tsconfig-build.json" fs in
    if (status =? 0)%Z then exec "vite build" fs' else (status, fs').
Proof. reflexivity. Qed.

(** C6: on a tree with a type or syntax error the build script fails
    and "vite build" is never run: the file system is left as it was, no
    output module, asset or manifest is written. *)
Theorem build_fails_without_output (fs : FS) :
  hasError fs ->
  fst (Shell.run exec PackageJson.build fs) <> 0%Z
  /\ snd (Shell.run exec PackageJson.build fs) = fs.
Proof.
  intros Herr. rewrite build_is_tsc_then_vite.
  pose proof (tsc_rejects fs Herr) as Hst.
  pose proof (tsc_noEmit fs) as Hfs.
  destruct (exec "tsc --p ./tsconfig-build.json" fs) as [status fs'].
  simpl in Hst, Hfs.
  destruct (Z.eqb_spec status 0) as [->|Hne]; [congruence|].
  simpl. auto.
Qed.

End BuildScript.

Lemma build_fails_without_output_witness :
  Spec.toyHasError ["lib/main.ts"; "lib/broken.ts"]
  /\ fst (Shell.run Spec.toyExec PackageJson.build ["lib/main.ts"; "lib/broken.ts"]) <> 0%Z
  /\ snd (Shell.run Spec.toyExec PackageJson.build ["lib/main.ts"; "lib/broken.ts"])
     = ["lib/main.ts"; "lib/broken.ts"].
Proof.
  split; [reflexivity|].
  apply (build_fails_without_output (list string) Spec.toyExec Spec.toyHasError).
  - intros fs H. unfold Spec.toyHasError in H. unfold Spec.toyExec.
    rewrite String.eqb_refl, H. discriminate.
  - intros fs. reflexivity.
  - reflexivity.
Defined.

(* ================================================================== *)
(** * More about [Object.fromEntries] and the input object *)
(* ================================================================== *)

Section AssignFacts.

Import JSObject.

Lemma get_fold_set (k : string) (entries : list (string * string)) (o : object) :
  get k (fold_left (fun o kv => set (fst kv) (snd kv) o) entries o)
  = match get k (rev entries) with
    | Some v => Some v
    | None => get k o
    end.
Proof.
  revert o. induction entries as [|[k' v'] entries IH] using rev_ind; intros o.
  - reflexivity.
  - rewrite fold_left_app, rev_app_distr. simpl.
    destruct (String.eqb_spec k k') as [->|Hne].
    + apply get_set_same.
    + rewrite get_set_other by exact Hne. apply IH.
Qed.

Lemma get_Some_In (k v : string) (o : object) :
  get k o = Some v -> In (k, v) o.
Proof.
  induction o as [|[k' v'] o IH]; simpl; [discriminate|].
  destruct (String.eqb_spec k k') as [->|Hne].
  - intros H. inversion H; subst. now left.
  - intros H. right. now apply IH.
Qed.

Lemma In_get_NoDup (k v : string) (o : object) :
  NoDup (keys o) -> In (k, v) o -> get k o = Some v.
Proof.
  induction o as [|[k' v'] o IH]; simpl; intros Hnd Hin; [tauto|].
  inversion Hnd as [|? ? Hk Hnd']; subst.
  destruct Hin as [Heq|Hin].
  - inversion Heq; subst. now rewrite String.eqb_refl.
  - destruct (String.eqb_spec k k') as [->|Hne].
    + exfalso. apply Hk. change k' with (fst (k', v)). now apply in_map.
    + now apply IH.
Qed.

Lemma keys_rev (o : object) : keys (rev o) = rev (keys o).
Proof. unfold keys. now rewrite map_rev. Qed.

Lemma get_rev_NoDup (k : string) (o : object) :
  NoDup (keys o) -> get k (rev o) = get k o.
Proof.
  intros Hnd.
  assert (Hnd' : NoDup (keys (rev o))) by (rewrite keys_rev; now apply NoDup_rev).
  destruct (get k o) as [v|] eqn:Hg.
  - apply In_get_NoDup; [exact Hnd'|]. apply -> in_rev. now apply get_Some_In.
  - apply get_none_iff. rewrite keys_rev. rewrite <- in_rev.
    now apply get_none_iff.
Qed.

Lemma in_keys_fromEntries (k : string) (entries : list (string * string)) :
  In k (keys (fromEntries entries)) <-> In k (map fst entries).
Proof.
  assert (H : get k (fromEntries entries) = get k (rev entries)).
  { unfold fromEntries. rewrite get_fold_set. now destruct (get k (rev entries)). }
  split; intros Hin.
  - destruct (get k (fromEntries entries)) as [v|] eqn:Hg.
    + symmetry in H. apply get_Some_In in H. apply in_rev in H.
      change k with (fst (k, v)). now apply in_map.
    + exfalso. apply get_none_iff in Hg. now apply Hg.
  - destruct (get k (fromEntries entries)) as [v|] eqn:Hg.
    + apply get_Some_In in Hg. change k with (fst (k, v)). now apply in_map.
    + exfalso. symmetry in H. apply get_none_iff in H. apply H.
      rewrite keys_rev. now apply -> in_rev.
Qed.

End AssignFacts.

(** X1: looking a key up in [Object.fromEntries(pairs)] gives the value
    of the last pair with that key, and nothing when no pair has it. *)
Theorem fromEntries_lookup_is_last_pair (k : string)
  (entries : list (string * string)) :
  JSObject.get k (JSObject.fromEntries entries) = JSObject.get k (rev entries).
Proof.
  unfold JSObject.fromEntries. rewrite get_fold_set.
  now destruct (JSObject.get k (rev entries)).
Qed.



(* ================================================================== *)
(** * More about the build script *)
(* ================================================================== *)

(** X6: the build script exits with status 0 exactly when tsc does and
    vite build, run on what tsc left, does too; after a passing tsc the
    script's result is that of vite build. *)
Theorem build_succeeds_iff_both_succeed (FS : Type)
  (exec : string -> Shell.program FS) (fs : FS) :
  (fst (Shell.run exec PackageJson.build fs) = 0%Z
   <-> fst (exec "tsc --p ./tsconfig-build.json" fs) = 0%Z
       /\ fst (exec "vite build"
                 (snd (exec "tsc --p ./tsconfig-build.json" fs))) = 0%Z)
  /\ (fst (exec "tsc --p ./tsconfig-build.json" fs) = 0%Z ->
      Shell.run exec PackageJson.build fs
      = exec "vite build" (snd (exec "tsc --p ./tsconfig-build.json" fs))).
Proof.
  rewrite build_is_tsc_then_vite.
  destruct (exec "tsc --p ./tsconfig-build.json" fs) as [status fs'].
  simpl fst. simpl snd.
  destruct (Z.eqb_spec status 0) as [->|Hne].
  - split; [|reflexivity]. split; [auto | tauto].
  - split; [|congruence]. simpl. split; [congruence | tauto].
Qed.

(* ================================================================== *)
(** * The components *)
(* ================================================================== *)

Section ComponentFacts.

Import JSObject Components.

Lemma get_restWithout (taken : list string) (k : string) (o : object) :
  get k (restWithout taken o)
  = if existsb (String.eqb k) taken then None else get k o.
Proof.
  induction o as [|[k' v'] o IH]; simpl.
  - now destruct (existsb (String.eqb k) taken).
  - destruct (String.eqb_spec k k') as [->|Hne].
    + destruct (existsb (String.eqb k') taken) eqn:Ht; simpl.
      * rewrite IH. rewrite ?Ht. reflexivity.
      * now rewrite String.eqb_refl.
    + destruct (existsb (String.eqb k') taken); simpl.
      * exact IH.
      * destruct (String.eqb_spec k k'); [congruence | exact IH].
Qed.

Lemma NoDup_keys_restWithout (taken : list string) (o : object) :
  NoDup (keys o) -> NoDup (keys (restWithout taken o)).
Proof.
  induction o as [|[k v] o IH]; simpl; intros Hnd; [constructor|].
  inversion Hnd as [|? ? Hk Hnd']; subst.
  destruct (existsb (String.eqb k) taken); simpl; [now apply IH|].
  constructor; [|now apply IH].
  intros Hin. apply Hk. unfold keys, restWithout in Hin.
  apply in_map_iff in Hin. destruct Hin as [[k0 v0] [Hfst Hin]].
  apply filter_In in Hin. destruct Hin as [Hin _]. simpl in Hfst. subst k0.
  change k with (fst (k, v0)). now apply in_map.
Qed.

Lemma get_assign (k : string) (target source : object) :
  NoDup (keys source) ->
  get k (assign target source)
  = match get k source with
    | Some v => Some v
    | None => get k target
    end.
Proof.
  intros Hnd. unfold assign. rewrite get_fold_set.
  now rewrite (get_rev_NoDup k source Hnd).
Qed.

End ComponentFacts.

(** X13: Button hands every prop other than className on to the
    <button> unchanged, and the className it sets, the caller's class
    followed by the module's, cannot be replaced by the props handed
    on; a caller that gives no className gets the class "undefined"
    in front of the module's. *)
Theorem Button_forwards_props (styles_button : string) (props : JSObject.object) :
  NoDup (JSObject.keys props) ->
  JSObject.get "className" (Components.props (Components.Button styles_button props))
  = Some (Components.templateValue (JSObject.get "className" props)
          ++ " " ++ styles_button)
  /\ (JSObject.get "className" props = None ->
      JSObject.get "className"
        (Components.props (Components.Button styles_button props))
      = Some ("undefined " ++ styles_button))
  /\ (forall k, k <> "className" ->
        JSObject.get k (Components.props (Components.Button styles_button props))
        = JSObject.get k props)
  /\ NoDup (JSObject.keys (Components.props (Components.Button styles_button props))).
Proof.
  intros Hnd.
  assert (Hrest : NoDup (JSObject.keys (Components.restWithout ["className"] props)))
    by now apply NoDup_keys_restWithout.
  assert (Hcls : JSObject.get "className"
                   (Components.props (Components.Button styles_button props))
                 = Some (Components.templateValue (JSObject.get "className" props)
                         ++ " " ++ styles_button)).
  { unfold Components.Button. cbn [Components.props].
    rewrite (get_assign _ _ _ Hrest), get_restWithout. reflexivity. }
  split; [exact Hcls | split; [|split]].
  - intros Hnone. rewrite Hcls, Hnone. reflexivity.
  - intros k Hk. unfold Components.Button. cbn [Components.props].
    rewrite (get_assign _ _ _ Hrest), get_restWithout.
    assert (Hkb : String.eqb k "className" = false) by now apply String.eqb_neq.
    cbn [existsb]. rewrite Hkb. cbn [orb].
    destruct (JSObject.get k props); [reflexivity|].
    cbn [JSObject.get]. now rewrite Hkb.
  - unfold Components.Button, Components.assign. cbn [Components.props].
    apply NoDup_keys_fold. repeat constructor. simpl. tauto.
Qed.

Lemma Button_forwards_props_witness :
  NoDup (JSObject.keys [("type", "submit"); ("className", "wide")])
  /\ JSObject.get "className"
       (Components.props
          (Components.Button "button_x1" [("type", "submit"); ("className", "wide")]))
     = Some "wide button_x1"
  /\ JSObject.get "type"
       (Components.props
          (Components.Button "button_x1" [("type", "submit"); ("className", "wide")]))
     = Some "submit".
Proof.
  assert (H : NoDup (JSObject.keys [("type", "submit"); ("className", "wide")])).
  { repeat constructor; simpl; intuition discriminate. }
  pose proof (Button_forwards_props "button_x1"
                [("type", "submit"); ("className", "wide")] H) as [H1 [_ [H3 _]]].
  split; [exact H | split; [exact H1|]].
  apply (H3 "type"). discriminate.
Defined.

(** X14: Text uses only className and children: its <p> gets the
    module's class followed by the caller's ("undefined" when none is
    given) and the children, and every other prop of the caller is
    dropped. *)
Theorem Text_keeps_only_class_and_children (styles_text : string)
  (props : JSObject.object) (k : string) :
  JSObject.get "className" (Components.props (Components.Text styles_text props))
  = Some (styles_text ++ " "
          ++ Components.templateValue (JSObject.get "className" props))
  /\ JSObject.get "children" (Components.props (Components.Text styles_text props))
     = JSObject.get "children" props
  /\ (k <> "className" -> k <> "children" ->
      JSObject.get k (Components.props (Components.Text styles_text props)) = None).
Proof.
  unfold Components.Text. cbn [Components.props].
  split; [reflexivity | split].
  - destruct (JSObject.get "children" props); reflexivity.
  - intros H1 H2. apply String.eqb_neq in H1, H2.
    destruct (JSObject.get "children" props); cbn [JSObject.get];
      rewrite ?H1, ?H2; reflexivity.
Qed.

